(** * Scraper chat bot: the chat-turn core of [backend/routes/chat.py]

    A shallow embedding of the conversation flow of the Flask backend:
    the string helpers Python supplies ([str.strip], [str.replace],
    slicing), the SQLite tables of [backend/utils/db.py], the external
    collaborators (clock, uuid source, web scraper, text generator) as
    oracles of a [World], and the handlers of [backend/routes/chat.py]
    written in a small state-and-trace monad with early return and
    exceptions.

    Conventions of the embedding:
    - a Python [str] is a [string]; one [ascii] stands for one character
      (code points 0 to 255);
    - a timestamp ([datetime.now().isoformat()], compared as text by
      SQLite) is a [Z], the number of microseconds it denotes: for the
      four-digit years the ISO text order and the numeric order agree;
    - the JSON request body is a [gmap string string]: an object whose
      members are strings, as the handler's docstring documents them. *)

From Stdlib Require Import Ascii String ZArith Lia Sorted.
From stdpp Require Import base option list sorting gmap strings pretty fin_maps.

Open Scope Z_scope.

(* ===================================================================== *)
(** * Python string primitives *)
(* ===================================================================== *)

Module PyStr.

(** [str.isspace] on one character, for code points below 256: the
    ASCII controls TAB LF VT FF CR, the separators FS GS RS US, the
    space, NEL (U+0085) and the no-break space (U+00A0). *)
Definition isspace (c : ascii) : bool :=
  match c with
  | "009" | "010" | "011" | "012" | "013"
  | "028" | "029" | "030" | "031"
  | " " | "133" | "160" => true
  | _ => false
  end%char.

(** [s.lstrip()] *)
Fixpoint lstrip (s : string) : string :=
  match s with
  | "" => ""
  | String c s' => if isspace c then lstrip s' else s
  end.

(** [s.rstrip()] *)
Fixpoint rstrip (s : string) : string :=
  match s with
  | "" => ""
  | String c s' =>
      match rstrip s' with
      | "" => if isspace c then "" else String c ""
      | r => String c r
      end
  end.

(** [s.strip()] *)
Definition strip (s : string) : string := rstrip (lstrip s).

(** [s.replace('\x00', '')] *)
Fixpoint remove_nul (s : string) : string :=
  match s with
  | "" => ""
  | String c s' =>
      if Ascii.eqb c "000"%char then remove_nul s' else String c (remove_nul s')
  end.

(** [s[:n]] *)
Fixpoint slice_to (n : nat) (s : string) : string :=
  match n, s with
  | O, _ => ""
  | _, "" => ""
  | S n', String c s' => String c (slice_to n' s')
  end.

(** [len(s)] *)
Definition len (s : string) : nat := String.length s.

(** Truth value of a string in a condition: [if s:] *)
Definition truthy (s : string) : bool :=
  match s with "" => false | _ => true end.

End PyStr.

Import PyStr.

(* ===================================================================== *)
(** * Data model: the tables of [init_db] *)
(* ===================================================================== *)

(** A row of [chats], keyed by its [id] (TEXT PRIMARY KEY). *)
Record ChatRow := mkChat {
  chat_user_id : Z;
  chat_created_at : Z;
  chat_updated_at : Z }.

(** A row of [messages]; [msg_id] is the AUTOINCREMENT key. *)
Record MessageRow := mkMessage {
  msg_id : nat;
  msg_chat_id : string;
  msg_role : string;
  msg_content : string;
  msg_timestamp : Z }.

(** A row of [chat_metadata], keyed by [chat_id] (TEXT PRIMARY KEY). *)
Record MetaRow := mkMeta {
  last_url : string;
  last_scraped_content : string }.

(** The database file. [messages] is kept in insertion (rowid) order. *)
Record DB := mkDB {
  chats : gmap string ChatRow;
  messages : list MessageRow;
  chat_metadata : gmap string MetaRow }.

Definition empty_db : DB := mkDB ∅ [] ∅.

Global Instance ChatRow_eq_dec : EqDecision ChatRow.
Proof. solve_decision. Defined.
Global Instance MetaRow_eq_dec : EqDecision MetaRow.
Proof. solve_decision. Defined.
Global Instance MessageRow_eq_dec : EqDecision MessageRow.
Proof. solve_decision. Defined.

(* ===================================================================== *)
(** * External collaborators *)
(* ===================================================================== *)

(** The dictionary [WebScraper.scrape_url] returns: either
    [{'success': True, 'content': c, 'title': t, 'error': None}] or
    [{'success': False, 'content': '', 'title': '', 'error': e}]. *)
Inductive ScrapeResult :=
| ScrapeOk (content title : string)
| ScrapeFail (error : string).

(** The dictionary [OpenAIHelper.generate_response] returns: either
    [{'success': True, 'response': r, 'error': None}] or
    [{'success': False, 'response': '', 'error': e}]. *)
Inductive AiResult :=
| AiOk (response : string)
| AiFail (error : string).

(** Everything outside the process, as oracles read at a position of
    the world's time line: the wall clock, the uuid source, the page a
    URL serves and the text the model generates. Nothing is assumed
    about them; theorems state what they need. *)
Record World := mkWorld {
  clock : nat -> Z;
  uuid : nat -> string;
  fetch : nat -> string -> ScrapeResult;
  generate : nat -> string -> option string -> list (string * string) -> AiResult }.

(** Calls on the collaborators, in the order they are made. A store
    write is recorded when its transaction commits, with the arguments
    of the call. *)
Inductive Event :=
| EvScrape (url : string) (r : ScrapeResult)
| EvGenerate (user_prompt : string) (website_content : option string)
    (conversation_history : list (string * string)) (r : AiResult)
| EvCreateChat (chat_id : string) (user_id : Z)
| EvAddMessage (chat_id role content : string)
| EvUpdateTimestamp (chat_id : string)
| EvSaveMetadata (chat_id url content : string).

Definition is_write (e : Event) : bool :=
  match e with
  | EvScrape _ _ | EvGenerate _ _ _ _ => false
  | _ => true
  end.

Definition is_generate (e : Event) : bool :=
  match e with EvGenerate _ _ _ _ => true | _ => false end.

Definition is_scrape (e : Event) : bool :=
  match e with EvScrape _ _ => true | _ => false end.

(* ===================================================================== *)
(** * Responses of the endpoints *)
(* ===================================================================== *)

(** One entry of the [/history] listing. *)
Record ChatEntry := mkEntry {
  entry_chat_id : string;
  entry_created_at : Z;
  entry_updated_at : Z;
  entry_preview : string }.

(** The pair [jsonify(...), status] a handler returns. *)
Inductive Response :=
| JsonError (status : Z) (error : string)
| JsonMessage (response chat_id : string)
| JsonHistory (chat_list : list ChatEntry)
| JsonChat (chat_id : string) (msgs : list MessageRow)
| JsonNewChat (chat_id : string).

Definition status_of (r : Response) : Z :=
  match r with
  | JsonError st _ => st
  | JsonNewChat _ => 201
  | _ => 200
  end.

(* ===================================================================== *)
(** * The handler monad *)
(* ===================================================================== *)

(** State threaded through a request: the database and the position on
    the world's time line. *)
Record State := mkState {
  db : DB;
  tick : nat }.

Definition init_state : State := mkState empty_db 0.

(** A step either yields a value, leaves the handler with a response
    ([return jsonify(...)]) or raises. Store writes are committed call
    by call, so the state survives all three. *)
Inductive Result (A : Type) :=
| Value (a : A)
| Return (r : Response)
| Raise (exn : string).
Arguments Value {A} a.
Arguments Return {A} r.
Arguments Raise {A} exn.

Definition M (A : Type) : Type := State -> Result A * State * list Event.

Definition value {A} (a : A) : M A := fun s => (Value a, s, []).

Definition bind {A B} (m : M A) (f : A -> M B) : M B := fun s =>
  match m s with
  | (Value a, s1, ev1) =>
      match f a s1 with (r, s2, ev2) => (r, s2, ev1 ++ ev2) end
  | (Return r, s1, ev1) => (Return r, s1, ev1)
  | (Raise e, s1, ev1) => (Raise e, s1, ev1)
  end.

Declare Scope handler_scope.
Delimit Scope handler_scope with handler.
Bind Scope handler_scope with M.
Notation "x ← y ; z" := (bind y (fun x => z))
  (at level 20, y at level 100, z at level 200, only parsing) : handler_scope.
Notation "x ;; z" := (bind x (fun _ => z))
  (at level 100, z at level 200, only parsing, right associativity) : handler_scope.
Open Scope handler_scope.

Definition return_ {A} (r : Response) : M A := fun s => (Return r, s, []).
Definition raise {A} (exn : string) : M A := fun s => (Raise exn, s, []).
Definition get_db : M DB := fun s => (Value (db s), s, []).
Definition commit (d : DB) (e : Event) : M unit :=
  fun s => (Value (), mkState d (tick s), [e]).
Definition oracle {A} (f : nat -> A) : M A :=
  fun s => (Value (f (tick s)), mkState (db s) (S (tick s)), []).
Definition emit (e : Event) : M unit := fun s => (Value (), s, [e]).
Definition pass : M unit := value ().

(** The state a step leaves. *)
Definition state_of {A} (r : Result A * State * list Event) : State :=
  snd (fst r).

(** What a request leaves behind. *)
Record Outcome := mkOutcome {
  reply : Response;
  final : State;
  events : list Event }.

(** [@handle_errors]: any exception becomes a 500 without detail. *)
Definition handle_errors (f : M Response) (s : State) : Outcome :=
  match f s with
  | (Value r, s', ev) => mkOutcome r s' ev
  | (Return r, s', ev) => mkOutcome r s' ev
  | (Raise _, s', ev) => mkOutcome (JsonError 500 "Internal server error") s' ev
  end.

(* ===================================================================== *)
(** * [backend/utils/db.py] *)
(* ===================================================================== *)

(** [sanitize_db_input] *)
Definition sanitize_db_input (text : string) : string :=
  if truthy text then strip (remove_nul text) else "".

(** [ORDER BY key ASC]: a stable insertion sort, rows with equal keys
    staying in rowid order. *)
Fixpoint insert_by {A} (key : A -> Z) (x : A) (l : list A) : list A :=
  match l with
  | [] => [x]
  | y :: l' => if key x <=? key y then x :: l else y :: insert_by key x l'
  end.

Definition order_by {A} (key : A -> Z) (l : list A) : list A :=
  foldr (insert_by key) [] l.

(** [SELECT * FROM messages WHERE chat_id = ? ORDER BY timestamp ASC] *)
Definition select_messages (chat_id : string) (d : DB) : list MessageRow :=
  order_by msg_timestamp
    (filter (fun m => msg_chat_id m = chat_id) (messages d)).

(** [SELECT * FROM chats WHERE user_id = ? ORDER BY updated_at DESC].
    SQL leaves the order of rows with equal [updated_at] open; here they
    come in the key order of [map_to_list], where SQLite would go by
    rowid. *)
Definition select_user_chats (user_id : Z) (d : DB) : list (string * ChatRow) :=
  order_by (fun r => - chat_updated_at (snd r))
    (filter (fun r => chat_user_id (snd r) = user_id) (map_to_list (chats d))).

Section Db.

Variable w : World.

(** [datetime.now().isoformat()] *)
Definition datetime_now : M Z := oracle (clock w).

(** [str(uuid.uuid4())] *)
Definition uuid4 : M string := oracle (uuid w).

(** [create_chat]: the INSERT fails on a primary key already present. *)
Definition create_chat (user_id : Z) : M string :=
  chat_id ← uuid4;
  timestamp ← datetime_now;
  d ← get_db;
  match chats d !! chat_id with
  | Some _ => raise "IntegrityError: UNIQUE constraint failed: chats.id"
  | None =>
      commit (mkDB (<[chat_id := mkChat user_id timestamp timestamp]> (chats d))
                   (messages d) (chat_metadata d))
             (EvCreateChat chat_id user_id);;
      value chat_id
  end.

(** [get_user_chats] *)
Definition get_user_chats (user_id : Z) : M (list (string * ChatRow)) :=
  d ← get_db; value (select_user_chats user_id d).

(** [get_chat_messages] *)
Definition get_chat_messages (chat_id : string) : M (list MessageRow) :=
  d ← get_db; value (select_messages chat_id d).

(** [add_message] *)
Definition add_message (chat_id role content : string) : M unit :=
  timestamp ← datetime_now;
  let content' := sanitize_db_input content in
  d ← get_db;
  commit (mkDB (chats d)
               (messages d ++
                  [mkMessage (S (length (messages d))) chat_id role content' timestamp])
               (chat_metadata d))
         (EvAddMessage chat_id role content).

(** [update_chat_timestamp]: an UPDATE that matches no row changes
    nothing. *)
Definition update_chat_timestamp (chat_id : string) : M unit :=
  timestamp ← datetime_now;
  d ← get_db;
  commit (mkDB (alter (fun r => mkChat (chat_user_id r) (chat_created_at r) timestamp)
                      chat_id (chats d))
               (messages d) (chat_metadata d))
         (EvUpdateTimestamp chat_id).

(** [save_chat_metadata]: INSERT OR REPLACE on the primary key. *)
Definition save_chat_metadata (chat_id url content : string) : M unit :=
  let url' := sanitize_db_input url in
  let content' := sanitize_db_input content in
  d ← get_db;
  commit (mkDB (chats d) (messages d)
               (<[chat_id := mkMeta url' content']> (chat_metadata d)))
         (EvSaveMetadata chat_id url content).

(** [get_chat_metadata] *)
Definition get_chat_metadata (chat_id : string) : M (option MetaRow) :=
  d ← get_db; value (chat_metadata d !! chat_id).

(* =================================================================== *)
(** * [backend/utils/scraper.py], [backend/utils/openai_helper.py] *)
(* =================================================================== *)

(** [scraper.scrape_sync(url)] *)
Definition scrape_sync (url : string) : M ScrapeResult :=
  r ← oracle (fun t => fetch w t url);
  emit (EvScrape url r);;
  value r.

(** [openai_helper.generate_response(...)] *)
Definition generate_response (user_prompt : string)
    (website_content : option string)
    (conversation_history : list (string * string)) : M AiResult :=
  r ← oracle (fun t => generate w t user_prompt website_content conversation_history);
  emit (EvGenerate user_prompt website_content conversation_history r);;
  value r.

(* =================================================================== *)
(** * [backend/routes/chat.py] *)
(* =================================================================== *)

(** [verify_chat_ownership] *)
Definition verify_chat_ownership (chat_id : string) (user_id : Z) : M bool :=
  d ← get_db;
  match chats d !! chat_id with
  | Some row => value (bool_decide (chat_user_id row = user_id))
  | None => value false
  end.

(** The body of [send_message]; [user_id] is
    [request.current_user_id], [data] is [request.get_json()]. *)
Definition send_message_body (user_id : Z) (data : gmap string string) : M Response :=
  (if bool_decide (data = ∅)
   then return_ (JsonError 400 "No data provided") else pass);;
  let prompt := strip (default "" (data !! "prompt")) in
  (if truthy prompt
   then pass else return_ (JsonError 400 "Prompt is required"));;
  let url := strip (default "" (data !! "url")) in
  chat_id ← match data !! "chat_id" with
            | Some c =>
                if truthy c then
                  owns ← verify_chat_ownership c user_id;
                  if owns then value c
                  else return_ (JsonError 404 "Chat not found or access denied")
                else create_chat user_id
            | None => create_chat user_id
            end;
  previous_messages ← get_chat_messages chat_id;
  let conversation_history :=
    map (fun msg => (msg_role msg, msg_content msg)) previous_messages in
  website_content ←
    (if truthy url then
       scrape_result ← scrape_sync url;
       match scrape_result with
       | ScrapeFail error =>
           return_ (JsonError 400 ("Failed to scrape website: " +:+ error))
       | ScrapeOk content _ =>
           save_chat_metadata chat_id url content;;
           value (Some content)
       end
     else
       metadata ← get_chat_metadata chat_id;
       match metadata with
       | Some row =>
           if truthy (last_scraped_content row)
           then value (Some (last_scraped_content row))
           else value None
       | None => value None
       end);
  ai_result ← generate_response prompt website_content conversation_history;
  match ai_result with
  | AiFail error =>
      return_ (JsonError 500 ("Failed to generate response: " +:+ error))
  | AiOk response =>
      add_message chat_id "user" prompt;;
      add_message chat_id "assistant" response;;
      update_chat_timestamp chat_id;;
      value (JsonMessage response chat_id)
  end.

Definition send_message (user_id : Z) (data : gmap string string) : State -> Outcome :=
  handle_errors (send_message_body user_id data).

(** The preview computed in the loop of [get_history]. *)
Definition preview (msgs : list MessageRow) : string :=
  match msgs with
  | [] => "New Chat"
  | first :: _ =>
      let first_message := msg_content first in
      slice_to 50 first_message +:+
        (if (50 <? len first_message)%nat then "..." else "")
  end.

(** [get_history] *)
Definition get_history (user_id : Z) : State -> Outcome :=
  handle_errors (
    user_chats ← get_user_chats user_id;
    d ← get_db;
    value (JsonHistory
            (map (fun chat : string * ChatRow =>
                    mkEntry (fst chat) (chat_created_at (snd chat))
                            (chat_updated_at (snd chat))
                            (preview (select_messages (fst chat) d)))
                 user_chats))).

(** [get_chat] *)
Definition get_chat (user_id : Z) (chat_id : string) : State -> Outcome :=
  handle_errors (
    owns ← verify_chat_ownership chat_id user_id;
    if owns then
      msgs ← get_chat_messages chat_id;
      value (JsonChat chat_id msgs)
    else return_ (JsonError 404 "Chat not found or access denied")).

(** [new_chat] *)
Definition new_chat (user_id : Z) : State -> Outcome :=
  handle_errors (
    chat_id ← create_chat user_id;
    value (JsonNewChat chat_id)).

End Db.

(* ===================================================================== *)
(** * [backend/models/chat.py] *)
(* ===================================================================== *)

(** The [Message] and [Chat] dataclasses; [chat_messages] is the
    optional list, [None] when the chat was built without it. *)
Record Message := mkMsg {
  message_id : nat;
  message_chat_id : string;
  message_role : string;
  message_content : string;
  message_timestamp : Z }.

Record Chat := mkChatObj {
  chat_id_of : string;
  chat_owner : Z;
  chat_created : Z;
  chat_updated : Z;
  chat_messages : option (list Message) }.

(** [Chat.get_preview] *)
Definition get_preview (self : Chat) : string :=
  match chat_messages self with
  | Some (first :: _) => slice_to 50 (message_content first) +:+ "..."
  | _ => "New Chat"
  end.

(** Request bodies. *)
Definition ask (prompt : string) : gmap string string :=
  {[ "prompt" := prompt ]}.

Definition ask_about (url prompt : string) : gmap string string :=
  {[ "prompt" := prompt; "url" := url ]}.

Definition ask_in (chat_id prompt : string) : gmap string string :=
  {[ "prompt" := prompt; "chat_id" := chat_id ]}.

Definition ask_in_about (chat_id url prompt : string) : gmap string string :=
  {[ "prompt" := prompt; "chat_id" := chat_id; "url" := url ]}.

(** A small world to run the code in: the clock reads the tick, the
    uuid source counts, every page reads [" page "] and the model
    answers [" hi "]. *)
Definition demo_world : World :=
  mkWorld (fun t => Z.of_nat t)
          (fun t => "chat-" +:+ pretty t)
          (fun _ _ => ScrapeOk " page " "title")
          (fun _ _ _ _ => AiOk " hi ").

(** The same world with every page unreachable. *)
Definition offline_world : World :=
  mkWorld (clock demo_world) (uuid demo_world)
          (fun _ _ => ScrapeFail "Invalid URL format")
          (generate demo_world).

(** The same world with the model out of service. *)
Definition mute_world : World :=
  mkWorld (clock demo_world) (uuid demo_world) (fetch demo_world)
          (fun _ _ _ _ => AiFail "timeout").

(** The same world with every page blank. *)
Definition blank_world : World :=
  mkWorld (clock demo_world) (uuid demo_world)
          (fun _ _ => ScrapeOk "   " "")
          (generate demo_world).

(* ===================================================================== *)
(** * Vocabulary of the properties *)
(* ===================================================================== *)

(** The trimmed prompt and URL [send_message] works with. *)
Definition request_prompt (data : gmap string string) : string :=
  strip (default "" (data !! "prompt")).

Definition request_url (data : gmap string string) : string :=
  strip (default "" (data !! "url")).

(** [if chat_id:] on [data.get('chat_id')] *)
Definition chat_id_supplied (data : gmap string string) : bool :=
  match data !! "chat_id" with
  | Some c => truthy c
  | None => false
  end.

(** The chat a turn runs on: the one the request names, else the one
    [create_chat] is about to create. *)
Definition turn_chat_id (w : World) (data : gmap string string) (s : State) : string :=
  match data !! "chat_id" with
  | Some c => if truthy c then c else uuid w (tick s)
  | None => uuid w (tick s)
  end.

(** The page contexts handed to the generator during a request. *)
Definition page_contexts (ev : list Event) : list (option string) :=
  omap (fun e => match e with EvGenerate _ c _ _ => Some c | _ => None end) ev.

(** The text a successful turn returns to its caller. *)
Definition response_text (o : Outcome) : string :=
  match reply o with JsonMessage r _ => r | _ => "" end.

Definition role_content (m : MessageRow) : string * string :=
  (msg_role m, msg_content m).

(** The message listing of a chat, as [get_chat] serves it. *)
Definition list_messages (chat_id : string) (s : State) : list MessageRow :=
  select_messages chat_id (db s).

(** The scrape-cache lookup of a chat. *)
Definition scrape_cache (chat_id : string) (s : State) : option MetaRow :=
  chat_metadata (db s) !! chat_id.

(** A clock whose successive readings strictly increase. *)
Definition strictly_increasing (f : nat -> Z) : Prop :=
  forall i j : nat, (i < j)%nat -> f i < f j.

Definition earlier (a b : MessageRow) : Prop := msg_timestamp a < msg_timestamp b.

(** Requests of the chat blueprint, after the identity gate. *)
Inductive Request :=
| PostMessage (user_id : Z) (data : gmap string string)
| GetHistory (user_id : Z)
| GetChat (user_id : Z) (chat_id : string)
| PostNew (user_id : Z).

Definition serve (w : World) (r : Request) : State -> Outcome :=
  match r with
  | PostMessage user_id data => send_message w user_id data
  | GetHistory user_id => get_history user_id
  | GetChat user_id chat_id => get_chat user_id chat_id
  | PostNew user_id => new_chat w user_id
  end.

(** The states the service can be in, with the trace of collaborator
    calls that led there: the empty database, then one request at a
    time. *)
Inductive reachable (w : World) : State -> list Event -> Prop :=
| reach_init : reachable w init_state []
| reach_serve s tr r :
    reachable w s tr ->
    reachable w (final (serve w r s)) (tr ++ events (serve w r s)).

(** A sequence of requests, each served where the previous one ended. *)
Fixpoint serve_run (w : World) (rs : list Request) (s : State) : list Outcome :=
  match rs with
  | [] => []
  | r :: rest =>
      let o := serve w r s in
      o :: serve_run w rest (final o)
  end.

(** The states a run goes through, the starting one first. *)
Definition states_of (s : State) (outs : list Outcome) : list State :=
  s :: map final outs.

Fixpoint state_after (s : State) (outs : list Outcome) : State :=
  match outs with
  | [] => s
  | o :: rest => state_after (final o) rest
  end.

(** The user and assistant contents a turn is to leave in the chat. *)
Definition turn_pair (t : Z * gmap string string) (o : Outcome)
  : list (string * string) :=
  [("user", sanitize_db_input (request_prompt (snd t)));
   ("assistant", sanitize_db_input (response_text o))].

(** The reply is the 200 answer of a turn on the chat. *)
Definition answered_on (chat_id : string) (o : Outcome) : bool :=
  match reply o with
  | JsonMessage _ c => bool_decide (c = chat_id)
  | _ => false
  end.

(** How many of the outcomes are answered turns on the chat. *)
Definition answered_count (chat_id : string) (outs : list Outcome) : nat :=
  length (filter (fun o => answered_on chat_id o = true) outs).

(** What a request is to leave in the listing of the chat: the pair of
    a turn answered on it, nothing otherwise. *)
Definition chat_pair (chat_id : string) (r : Request) (o : Outcome)
  : list (string * string) :=
  match r with
  | PostMessage user_id data =>
      if answered_on chat_id o then turn_pair (user_id, data) o else []
  | _ => []
  end.

(** [updated_at] of the chat moved forward between two states. *)
Definition updated_at_advanced (chat_id : string) (s s' : State) : Prop :=
  exists row', chats (db s') !! chat_id = Some row'
    /\ chat_created_at row' < chat_updated_at row'
    /\ forall row, chats (db s) !! chat_id = Some row ->
         chat_updated_at row < chat_updated_at row'.

(** Every stored timestamp lies before the next clock reading, and the
    message table is in timestamp order. *)
Record consistent (w : World) (s : State) : Prop := mkConsistent {
  msgs_past : Forall (fun m => msg_timestamp m < clock w (tick s)) (messages (db s));
  chats_past : forall cid row, chats (db s) !! cid = Some row ->
      chat_created_at row <= chat_updated_at row < clock w (tick s);
  msgs_order : StronglySorted earlier (messages (db s)) }.

(* ===================================================================== *)
(** * The outcomes of a turn, case by case *)
(* ===================================================================== *)

(** The conversation history a turn hands to the generator. *)
Definition history_of (chat_id : string) (s : State) : list (string * string) :=
  map (fun msg => (msg_role msg, msg_content msg)) (select_messages chat_id (db s)).

(** The state [create_chat] leaves when the fresh id is free. *)
Definition with_new_chat (w : World) (user_id : Z) (s : State) : State :=
  let now := clock w (S (tick s)) in
  mkState (mkDB (<[uuid w (tick s) := mkChat user_id now now]> (chats (db s)))
                (messages (db s)) (chat_metadata (db s)))
          (S (S (tick s))).

(** The state a successful scrape leaves. *)
Definition with_scrape (chat_id url content : string) (s : State) : State :=
  mkState (mkDB (chats (db s)) (messages (db s))
                (<[chat_id := mkMeta (sanitize_db_input url) (sanitize_db_input content)]>
                   (chat_metadata (db s))))
          (S (tick s)).

(** The state the three closing writes of a turn leave; the generator
    was read at [tick s]. *)
Definition with_turn (w : World) (chat_id prompt response : string) (s : State) : State :=
  let n := length (messages (db s)) in
  let t := tick s in
  mkState (mkDB (alter (fun r => mkChat (chat_user_id r) (chat_created_at r)
                                        (clock w (S (S (S t)))))
                       chat_id (chats (db s)))
                (messages (db s) ++
                   [mkMessage (S n) chat_id "user"
                              (sanitize_db_input prompt) (clock w (S t));
                    mkMessage (S (S n)) chat_id "assistant"
                              (sanitize_db_input response) (clock w (S (S t)))])
                (chat_metadata (db s)))
          (S (S (S (S t)))).

(** Resolving the chat: an owned chat named by the request, or a new
    one. *)
Inductive resolves (w : World) (user_id : Z) (data : gmap string string) (s : State)
  : string -> State -> list Event -> Prop :=
| ResolveOwned c row :
    data !! "chat_id" = Some c -> c <> "" ->
    chats (db s) !! c = Some row -> chat_user_id row = user_id ->
    resolves w user_id data s c s []
| ResolveCreated :
    chat_id_supplied data = false ->
    chats (db s) !! uuid w (tick s) = None ->
    resolves w user_id data s (uuid w (tick s)) (with_new_chat w user_id s)
             [EvCreateChat (uuid w (tick s)) user_id].

(** Resolving the page context: scraped now, taken from the cache, or
    none. *)
Inductive page_context (w : World) (data : gmap string string) (chat_id : string)
    (s : State) : option string -> State -> list Event -> Prop :=
| ContextScraped content title :
    request_url data <> "" ->
    fetch w (tick s) (request_url data) = ScrapeOk content title ->
    page_context w data chat_id s (Some content)
      (with_scrape chat_id (request_url data) content s)
      [EvScrape (request_url data) (ScrapeOk content title);
       EvSaveMetadata chat_id (request_url data) content]
| ContextCached row :
    request_url data = "" ->
    chat_metadata (db s) !! chat_id = Some row ->
    last_scraped_content row <> "" ->
    page_context w data chat_id s (Some (last_scraped_content row)) s []
| ContextEmptyCache row :
    request_url data = "" ->
    chat_metadata (db s) !! chat_id = Some row ->
    last_scraped_content row = "" ->
    page_context w data chat_id s None s []
| ContextNoCache :
    request_url data = "" ->
    chat_metadata (db s) !! chat_id = None ->
    page_context w data chat_id s None s [].

(** The seven ways a turn can end. *)
Inductive turn (w : World) (user_id : Z) (data : gmap string string) (s : State)
  : Outcome -> Prop :=
| TurnNoData :
    data = ∅ ->
    turn w user_id data s (mkOutcome (JsonError 400 "No data provided") s [])
| TurnNoPrompt :
    data <> ∅ -> request_prompt data = "" ->
    turn w user_id data s (mkOutcome (JsonError 400 "Prompt is required") s [])
| TurnDenied c :
    request_prompt data <> "" ->
    data !! "chat_id" = Some c -> c <> "" ->
    (forall row, chats (db s) !! c = Some row -> chat_user_id row <> user_id) ->
    turn w user_id data s
         (mkOutcome (JsonError 404 "Chat not found or access denied") s [])
| TurnCollision row :
    request_prompt data <> "" ->
    chat_id_supplied data = false ->
    chats (db s) !! uuid w (tick s) = Some row ->
    turn w user_id data s
         (mkOutcome (JsonError 500 "Internal server error")
                    (mkState (db s) (S (S (tick s)))) [])
| TurnFetchFailed cid s1 ev1 error :
    request_prompt data <> "" ->
    resolves w user_id data s cid s1 ev1 ->
    request_url data <> "" ->
    fetch w (tick s1) (request_url data) = ScrapeFail error ->
    turn w user_id data s
         (mkOutcome (JsonError 400 ("Failed to scrape website: " +:+ error))
                    (mkState (db s1) (S (tick s1)))
                    (ev1 ++ [EvScrape (request_url data) (ScrapeFail error)]))
| TurnGenerationFailed cid s1 ev1 ctx s2 ev2 error :
    request_prompt data <> "" ->
    resolves w user_id data s cid s1 ev1 ->
    page_context w data cid s1 ctx s2 ev2 ->
    generate w (tick s2) (request_prompt data) ctx (history_of cid s) = AiFail error ->
    turn w user_id data s
         (mkOutcome (JsonError 500 ("Failed to generate response: " +:+ error))
                    (mkState (db s2) (S (tick s2)))
                    (ev1 ++ ev2 ++
                     [EvGenerate (request_prompt data) ctx (history_of cid s)
                                 (AiFail error)]))
| TurnAnswered cid s1 ev1 ctx s2 ev2 response :
    request_prompt data <> "" ->
    resolves w user_id data s cid s1 ev1 ->
    page_context w data cid s1 ctx s2 ev2 ->
    generate w (tick s2) (request_prompt data) ctx (history_of cid s) = AiOk response ->
    turn w user_id data s
         (mkOutcome (JsonMessage response cid)
                    (with_turn w cid (request_prompt data) response s2)
                    (ev1 ++ ev2 ++
                     [EvGenerate (request_prompt data) ctx (history_of cid s)
                                 (AiOk response);
                      EvAddMessage cid "user" (request_prompt data);
                      EvAddMessage cid "assistant" response;
                      EvUpdateTimestamp cid])).

(* ===================================================================== *)
(** * Further vocabulary: texts, tables, sequences of requests *)
(* ===================================================================== *)

(** Every character of a string passes a test. *)
Fixpoint all_chars (p : ascii -> bool) (s : string) : bool :=
  match s with
  | "" => true
  | String c s' => p c && all_chars p s'
  end.

Definition is_nul (c : ascii) : bool := Ascii.eqb c "000"%char.

Definition first_char (s : string) : option ascii :=
  match s with
  | "" => None
  | String c _ => Some c
  end.

Fixpoint last_char (s : string) : option ascii :=
  match s with
  | "" => None
  | String c "" => Some c
  | String _ s' => last_char s'
  end.

(** A text without null character that neither starts nor ends with
    white space. *)
Record clean (s : string) : Prop := mkClean {
  clean_no_nul : all_chars (fun c => negb (is_nul c)) s = true;
  clean_first : forall c, first_char s = Some c -> isspace c = false;
  clean_last : forall c, last_char s = Some c -> isspace c = false }.

(** Serving requests one after the other. *)
Fixpoint serve_all (w : World) (rs : list Request) (s : State) : State :=
  match rs with
  | [] => s
  | r :: rest => serve_all w rest (final (serve w r s))
  end.

(** The message table read two rows at a time: a user row followed by
    an assistant row of the same chat. *)
Fixpoint well_paired (l : list MessageRow) : bool :=
  match l with
  | [] => true
  | u :: l' =>
      match l' with
      | [] => false
      | a :: rest =>
          bool_decide (msg_role u = "user")
          && bool_decide (msg_role a = "assistant")
          && bool_decide (msg_chat_id u = msg_chat_id a)
          && well_paired rest
      end
  end.

(** The chat a collaborator call writes to, if it is a store write. *)
Definition event_chat (e : Event) : option string :=
  match e with
  | EvCreateChat chat_id _ => Some chat_id
  | EvAddMessage chat_id _ _ => Some chat_id
  | EvUpdateTimestamp chat_id => Some chat_id
  | EvSaveMetadata chat_id _ _ => Some chat_id
  | EvScrape _ _ | EvGenerate _ _ _ _ => None
  end.

(** The chat exists and belongs to the user. *)
Definition owned_by (user_id : Z) (chat_id : string) (s : State) : Prop :=
  exists row, chats (db s) !! chat_id = Some row /\ chat_user_id row = user_id.

(* ===================================================================== *)
(** * [backend/utils/openai_helper.py] *)
(* ===================================================================== *)

Module Helper.

(** The line feed. *)
Definition nl : string := String "010" "".

(** The fields [__init__] sets that a request depends on. *)
Record OpenAIHelper := mkHelper {
  model : string;
  temperature : Decimal.decimal;
  system_prompt : string }.

(** The arguments of [client.chat.completions.create]. *)
Record ApiRequest := mkRequest {
  req_model : string;
  req_messages : list (string * string);
  req_temperature : Decimal.decimal;
  req_max_tokens : Z }.

(** What the call gives: the content of the first choice, or an
    exception with its text. *)
Inductive ApiOutcome :=
| ApiReply (content : string)
| ApiRaised (e : string).

(** The message list [generate_response] assembles. *)
Definition build_messages (self : OpenAIHelper) (user_prompt : string)
    (website_content : option string)
    (conversation_history : option (list (string * string)))
  : list (string * string) :=
  let messages := [("system", system_prompt self)] in
  let messages :=
    match conversation_history with
    | Some (m :: h) => messages ++ (m :: h)
    | _ => messages
    end in
  let user_message :=
    match website_content with
    | Some c =>
        if truthy c
        then "Website Content:" +:+ nl +:+ nl +:+ c +:+ nl +:+ nl
             +:+ "User Request: " +:+ user_prompt
        else user_prompt
    | None => user_prompt
    end in
  messages ++ [("user", user_message)].

(** [generate_response], with the API call as a parameter. *)
Definition generate_response (self : OpenAIHelper) (create : ApiRequest -> ApiOutcome)
    (user_prompt : string) (website_content : option string)
    (conversation_history : option (list (string * string))) : AiResult :=
  match create (mkRequest (model self)
                  (build_messages self user_prompt website_content conversation_history)
                  (temperature self) 2000) with
  | ApiReply content => AiOk content
  | ApiRaised e => AiFail e
  end.

End Helper.

(* ===================================================================== *)
(** * Regular expressions, as [re] matches them *)
(* ===================================================================== *)

Module Re.

(** Patterns without groups to refer back to: what the two patterns of
    the repository are made of. *)
Inductive Regex :=
| Never
| Empty
| Ch (p : ascii -> bool)
| Cat (r1 r2 : Regex)
| Or (r1 r2 : Regex)
| Many (r : Regex).

Fixpoint nullable (r : Regex) : bool :=
  match r with
  | Never => false
  | Empty => true
  | Ch _ => false
  | Cat r1 r2 => nullable r1 && nullable r2
  | Or r1 r2 => nullable r1 || nullable r2
  | Many _ => true
  end.

(** What is left to match after the character [c]. *)
Fixpoint deriv (c : ascii) (r : Regex) : Regex :=
  match r with
  | Never => Never
  | Empty => Never
  | Ch p => if p c then Empty else Never
  | Cat r1 r2 =>
      if nullable r1
      then Or (Cat (deriv c r1) r2) (deriv c r2)
      else Cat (deriv c r1) r2
  | Or r1 r2 => Or (deriv c r1) (deriv c r2)
  | Many r' => Cat (deriv c r') (Many r')
  end.

(** The whole string matches the pattern. *)
Fixpoint matches (r : Regex) (s : string) : bool :=
  match s with
  | "" => nullable r
  | String c s' => matches (deriv c r) s'
  end.

(** [r+], [r?], [r{n}], [r{0,n}], [r{n,m}], [r{n,}] *)
Definition Some1 (r : Regex) : Regex := Cat r (Many r).
Definition Maybe (r : Regex) : Regex := Or r Empty.
Fixpoint Times (n : nat) (r : Regex) : Regex :=
  match n with
  | O => Empty
  | S n' => Cat r (Times n' r)
  end.
Fixpoint UpTo (n : nat) (r : Regex) : Regex :=
  match n with
  | O => Empty
  | S n' => Maybe (Cat r (UpTo n' r))
  end.
Definition Between (n m : nat) (r : Regex) : Regex := Cat (Times n r) (UpTo (m - n) r).
Definition AtLeast (n : nat) (r : Regex) : Regex := Cat (Times n r) (Many r).

(** Character tests. *)
Definition in_range (lo hi c : ascii) : bool :=
  (nat_of_ascii lo <=? nat_of_ascii c)%nat && (nat_of_ascii c <=? nat_of_ascii hi)%nat.
Definition is_upper (c : ascii) : bool := in_range "A" "Z" c.
Definition is_lower (c : ascii) : bool := in_range "a" "z" c.
Definition is_digit (c : ascii) : bool := in_range "0" "9" c.
Definition is_char (a c : ascii) : bool := Ascii.eqb a c.
Fixpoint one_of (set : string) (c : ascii) : bool :=
  match set with
  | "" => false
  | String a set' => Ascii.eqb a c || one_of set' c
  end.

Definition to_lower (c : ascii) : ascii :=
  if is_upper c then ascii_of_nat (nat_of_ascii c + 32) else c.
Definition to_upper (c : ascii) : ascii :=
  if is_lower c then ascii_of_nat (nat_of_ascii c - 32) else c.

(** A test under [re.IGNORECASE]: the character passes in one of its
    two cases. *)
Definition ignore_case (p : ascii -> bool) (c : ascii) : bool :=
  p (to_lower c) || p (to_upper c).

(** A literal text, character by character. *)
Fixpoint Text (wrap : (ascii -> bool) -> ascii -> bool) (s : string) : Regex :=
  match s with
  | "" => Empty
  | String a s' => Cat (Ch (wrap (is_char a))) (Text wrap s')
  end.

(** The string without its final line feed, if it ends with one. *)
Fixpoint chomp (s : string) : option string :=
  match s with
  | "" => None
  | String c "" => if Ascii.eqb c "010" then Some "" else None
  | String c s' => option_map (String c) (chomp s')
  end.

(** [re.match('^' r '$', s) is not None]: the pattern matches the whole
    string, or all of it but a final line feed. *)
Definition match_to_end (r : Regex) (s : string) : bool :=
  matches r s || match chomp s with Some s' => matches r s' | None => false end.

(** The strings a pattern stands for. *)
Inductive lang : Regex -> string -> Prop :=
| lang_empty : lang Empty ""
| lang_ch p c : p c = true -> lang (Ch p) (String c "")
| lang_cat r1 r2 s1 s2 : lang r1 s1 -> lang r2 s2 -> lang (Cat r1 r2) (s1 +:+ s2)
| lang_or_l r1 r2 s : lang r1 s -> lang (Or r1 r2) s
| lang_or_r r1 r2 s : lang r2 s -> lang (Or r1 r2) s
| lang_many_nil r : lang (Many r) ""
| lang_many_cons r s1 s2 : lang r s1 -> lang (Many r) s2 -> lang (Many r) (s1 +:+ s2).

End Re.

(** The characters some test of the pattern lets through. *)
Fixpoint accepts (r : Re.Regex) (c : ascii) : bool :=
  match r with
  | Re.Never | Re.Empty => false
  | Re.Ch p => p c
  | Re.Cat r1 r2 | Re.Or r1 r2 => accepts r1 c || accepts r2 c
  | Re.Many r' => accepts r' c
  end.

(** All 256 characters. *)
Definition all_ascii : list ascii := List.map ascii_of_nat (seq 0 256).

(** Every character the pattern lets through passes the test [q]. *)
Definition within (q : ascii -> bool) (r : Re.Regex) : bool :=
  forallb (fun c => implb (accepts r c) (q c)) all_ascii.

(** [s.lower()] *)
Fixpoint lower (s : string) : string :=
  match s with
  | "" => ""
  | String c s' => String (Re.to_lower c) (lower s')
  end.

(** [s.count(c)] *)
Fixpoint count_char (a : ascii) (s : string) : nat :=
  match s with
  | "" => 0
  | String c s' => (if Ascii.eqb a c then 1 else 0) + count_char a s'
  end.

(* ===================================================================== *)
(** * [backend/utils/scraper.py] *)
(* ===================================================================== *)

Module Scraper.

Import Re.

(** What [crawler.arun] gives back: the fields [scrape_url] reads. *)
Record CrawlResult := mkCrawl {
  success : bool;
  markdown : option string;
  metadata : option (gmap string string);
  error_message : option string }.

Inductive CrawlOutcome :=
| Crawled (result : CrawlResult)
| CrawlRaised (e : string).

(** [x or d] for an optional string. *)
Definition or_else (x : option string) (d : string) : string :=
  match x with
  | Some s => if truthy s then s else d
  | None => d
  end.

(** The pattern of [_is_valid_url], compiled with [re.IGNORECASE]. *)
Definition url_pattern : Regex :=
  let alnum := Ch (ignore_case (fun c => is_upper c || is_digit c)) in
  let alnum_dash :=
    Ch (ignore_case (fun c => is_upper c || is_digit c || is_char "-" c)) in
  let letter := Ch (ignore_case is_upper) in
  let digit := Ch is_digit in
  let dot := Ch (ignore_case (is_char ".")) in
  let domain :=
    Cat (Some1 (Cat alnum (Cat (Maybe (Cat (UpTo 61 alnum_dash) alnum)) dot)))
        (Cat (Between 2 6 letter) (Maybe dot)) in
  let localhost := Text ignore_case "localhost" in
  let ip :=
    Cat (Between 1 3 digit) (Cat dot
   (Cat (Between 1 3 digit) (Cat dot
   (Cat (Between 1 3 digit) (Cat dot
        (Between 1 3 digit)))))) in
  let port := Maybe (Cat (Ch (ignore_case (is_char ":"))) (Some1 digit)) in
  let rest :=
    Or (Maybe (Ch (ignore_case (is_char "/"))))
       (Cat (Ch (ignore_case (one_of "/?")))
            (Some1 (Ch (fun c => negb (isspace c))))) in
  Cat (Text ignore_case "http")
 (Cat (Maybe (Ch (ignore_case (is_char "s"))))
 (Cat (Text ignore_case "://")
 (Cat (Or domain (Or localhost ip))
 (Cat port rest)))).

(** [_is_valid_url] *)
Definition _is_valid_url (url : string) : bool :=
  if truthy url then match_to_end url_pattern url else false.

(** [scrape_url], with the crawler run as a parameter. *)
Definition scrape_url (arun : string -> CrawlOutcome) (url : string) : ScrapeResult :=
  if negb (_is_valid_url url) then ScrapeFail "Invalid URL format"
  else
    match arun url with
    | Crawled result =>
        if success result then
          ScrapeOk (or_else (markdown result) "")
                   (match metadata result with
                    | Some m => if bool_decide (m = ∅) then ""
                                else default "" (m !! "title")
                    | None => ""
                    end)
        else ScrapeFail (or_else (error_message result) "Failed to scrape website")
    | CrawlRaised e => ScrapeFail ("Scraping error: " +:+ e)
    end.

(** [scrape_sync] *)
Definition scrape_sync (arun : string -> CrawlOutcome) (url : string) : ScrapeResult :=
  scrape_url arun url.

End Scraper.

(* ===================================================================== *)
(** * [backend/utils/db.py]: the users table *)
(* ===================================================================== *)

Module Users.

(** A row of [users]; [u_id] is the AUTOINCREMENT key, [u_email] is
    UNIQUE, [u_created_at] is filled in by the database. *)
Record UserRow := mkUser {
  u_id : Z;
  u_email : string;
  u_username : string;
  u_password_hash : string;
  u_created_at : Z }.

(** [get_user_by_email] *)
Definition get_user_by_email (email : string) (users : list UserRow) : option UserRow :=
  List.find (fun r => bool_decide (u_email r = email)) users.

(** [get_user_by_id] *)
Definition get_user_by_id (user_id : Z) (users : list UserRow) : option UserRow :=
  List.find (fun r => bool_decide (u_id r = user_id)) users.

(** [create_user]; [now] is the database's CURRENT_TIMESTAMP. The
    INSERT fails ([None]) on an email already present. *)
Definition create_user (now : Z) (email username password_hash : string)
    (users : list UserRow) : option (Z * list UserRow) :=
  let email := sanitize_db_input email in
  let username := sanitize_db_input username in
  match get_user_by_email email users with
  | Some _ => None
  | None =>
      let user_id := Z.of_nat (S (length users)) in
      Some (user_id, users ++ [mkUser user_id email username password_hash now])
  end.

End Users.

(* ===================================================================== *)
(** * [backend/routes/auth.py] *)
(* ===================================================================== *)

Module Auth.

Import Re Users.

(** The pattern of [validate_email]. *)
Definition email_pattern : Regex :=
  let local :=
    Ch (fun c => is_lower c || is_upper c || is_digit c || one_of "._%+-" c) in
  let host :=
    Ch (fun c => is_lower c || is_upper c || is_digit c || one_of ".-" c) in
  let letter := Ch (fun c => is_lower c || is_upper c) in
  Cat (Some1 local)
 (Cat (Ch (is_char "@"))
 (Cat (Some1 host)
 (Cat (Ch (is_char "."))
      (AtLeast 2 letter)))).

(** [validate_email] *)
Definition validate_email (email : string) : bool := match_to_end email_pattern email.

(** [validate_password] *)
Definition validate_password (password : string) : bool * string :=
  if (len password <? 8)%nat
  then (false, "Password must be at least 8 characters long")
  else (true, "").

(** The replies of the authentication endpoints and of the decorator. *)
Inductive AuthReply :=
| AuthError (status : Z) (error : string)
| Registered
| LoggedIn (token : string) (id : Z) (email username : string)
| LoggedOut.

(** [register]; [hash_password] is bcrypt with a fresh salt ([None]
    when it raises), [now] the database's CURRENT_TIMESTAMP. *)
Definition register (hash_password : string -> option string) (now : Z)
    (data : gmap string string) (users : list UserRow) : AuthReply * list UserRow :=
  if bool_decide (data = ∅) then (AuthError 400 "No data provided", users) else
  let email := strip (default "" (data !! "email")) in
  let username := strip (default "" (data !! "username")) in
  let password := default "" (data !! "password") in
  if negb (truthy email) || negb (truthy username) || negb (truthy password)
  then (AuthError 400 "Email, username, and password are required", users) else
  if negb (validate_email email)
  then (AuthError 400 "Invalid email format", users) else
  let (is_valid, error_msg) := validate_password password in
  if negb is_valid then (AuthError 400 error_msg, users) else
  match get_user_by_email email users with
  | Some _ => (AuthError 400 "Email already registered", users)
  | None =>
      match hash_password password with
      | None => (AuthError 500 "Internal server error", users)
      | Some password_hash =>
          match create_user now email username password_hash users with
          | None => (AuthError 500 "Internal server error", users)
          | Some (_, users') => (Registered, users')
          end
      end
  end.

(** The payload [generate_token] signs. *)
Record Payload := mkPayload {
  payload_user_id : Z;
  payload_exp : Z;
  payload_iat : Z }.

(** What [login] relies on: [bcrypt.checkpw] and [jwt.encode] ([None]
    when they raise) and the two readings of [datetime.utcnow]. *)
Record LoginEnv := mkLoginEnv {
  checkpw : string -> string -> option bool;
  utcnow_exp : Z;
  utcnow_iat : Z;
  jwt_encode : Payload -> option string }.

(** 24 hours, in microseconds. *)
Definition hours_24 : Z := 24 * 3600 * 1000000.

(** [generate_token] *)
Definition generate_token (env : LoginEnv) (user_id : Z) : option string :=
  jwt_encode env (mkPayload user_id (utcnow_exp env + hours_24) (utcnow_iat env)).

(** [login] *)
Definition login (env : LoginEnv) (data : gmap string string) (users : list UserRow)
  : AuthReply :=
  if bool_decide (data = ∅) then AuthError 400 "No data provided" else
  let email := strip (default "" (data !! "email")) in
  let password := default "" (data !! "password") in
  if negb (truthy email) || negb (truthy password)
  then AuthError 400 "Email and password are required" else
  match get_user_by_email email users with
  | None => AuthError 401 "Invalid credentials"
  | Some user =>
      match checkpw env password (u_password_hash user) with
      | None => AuthError 500 "Internal server error"
      | Some false => AuthError 401 "Invalid credentials"
      | Some true =>
          match generate_token env (u_id user) with
          | None => AuthError 500 "Internal server error"
          | Some token => LoggedIn token (u_id user) (u_email user) (u_username user)
          end
      end
  end.

(** [s.split(sep)] for a one-character separator. *)
Fixpoint split (sep : ascii) (s : string) : list string :=
  match s with
  | "" => [""]
  | String c s' =>
      if Ascii.eqb c sep then "" :: split sep s'
      else match split sep s' with
           | [] => [String c ""]
           | piece :: pieces => String c piece :: pieces
           end
  end.

(** What [verify_token] gives: the [user_id] entry of the decoded
    payload (if it has one), or one of the two exceptions. *)
Inductive TokenOutcome :=
| TokenPayload (user_id : option Z)
| TokenExpired
| TokenInvalid.

(** What a decorated route gives: the decorator's or the route's reply,
    or an exception nobody catches. *)
Inductive Served (A : Type) :=
| Refused (reply : AuthReply)
| Ran (result : A)
| Uncaught (exn : string).
Arguments Refused {A} reply.
Arguments Ran {A} result.
Arguments Uncaught {A} exn.

(** [require_auth]: [verify_token] is a parameter, [auth_header] is
    [request.headers.get('Authorization')], [f] the route, given
    [request.current_user_id]. *)
Definition require_auth {A} (verify_token : string -> TokenOutcome)
    (f : Z -> A) (auth_header : option string) : Served A :=
  match auth_header with
  | None => Refused (AuthError 401 "No authorization token provided")
  | Some header =>
      if negb (truthy header)
      then Refused (AuthError 401 "No authorization token provided")
      else
        match split " " header with
        | _ :: token :: _ =>
            match verify_token token with
            | TokenPayload (Some user_id) => Ran (f user_id)
            | TokenPayload None => Uncaught "KeyError: 'user_id'"
            | TokenExpired => Refused (AuthError 401 "Token has expired")
            | TokenInvalid => Refused (AuthError 401 "Invalid token")
            end
        | _ => Refused (AuthError 401 "Invalid authorization header format")
        end
  end.

(** [logout] *)
Definition logout (verify_token : string -> TokenOutcome) (auth_header : option string)
  : Served AuthReply :=
  require_auth verify_token (fun _ => LoggedOut) auth_header.

End Auth.

(** Under [re.IGNORECASE], each character of the text is matched only
    by a character whose lower case it is. *)
Definition plain_text (t : string) : bool :=
  all_chars (fun a =>
    forallb (fun c => implb (Re.ignore_case (Re.is_char a) c)
                            (Ascii.eqb (Re.to_lower c) a)) all_ascii) t.

(** Successive registrations, each with its hashing, its time stamp and
    its request body. *)
Fixpoint register_run
    (calls : list ((string -> option string) * Z * gmap string string))
    (users : list Users.UserRow) : list Users.UserRow :=
  match calls with
  | [] => users
  | (hash_password, now, data) :: rest =>
      register_run rest (snd (Auth.register hash_password now data users))
  end.

(** The characters of an e-mail address: letters, digits and [._%+-@]. *)
Definition email_char (c : ascii) : bool :=
  Re.is_lower c || Re.is_upper c || Re.is_digit c || Re.one_of "._%+-@" c.

Definition is_letter (c : ascii) : bool := Re.is_lower c || Re.is_upper c.

(** A string without the separator of [auth_header.split(' ')]. *)
Definition no_space (s : string) : bool :=
  all_chars (fun c => negb (Ascii.eqb c " ")) s.

(** A small setting to run the account handlers in: hashing prefixes the
    password, [checkpw] compares with that, and only user 1 can get a
    token. *)
Definition demo_hash_password (password : string) : option string :=
  Some ("bcrypt:" +:+ password).

Definition demo_login_env : Auth.LoginEnv :=
  Auth.mkLoginEnv
    (fun password hashed => Some (String.eqb hashed ("bcrypt:" +:+ password)))
    0 0
    (fun payload => if Auth.payload_user_id payload =? 1
                    then Some "header.payload.signature" else None).

Definition demo_verify_token (token : string) : Auth.TokenOutcome :=
  if String.eqb token "header.payload.signature"
  then Auth.TokenPayload (Some 1)
  else Auth.TokenInvalid.

Definition demo_account : gmap string string :=
  {[ "email" := " ann@example.org "; "username" := "ann"; "password" := "correct horse" ]}.

Definition demo_wrong_password : gmap string string :=
  {[ "email" := "ann@example.org"; "password" := "wrong horse" ]}.

Definition demo_users : list Users.UserRow :=
  [Users.mkUser 1 "ann@example.org" "ann" "bcrypt:correct horse" 0].

(** The same world as [demo_world] with a model whose answer holds a
    null character. *)
Definition nul_world : World :=
  mkWorld (clock demo_world) (uuid demo_world) (fetch demo_world)
          (fun _ _ _ _ => AiOk (String "a" (String "000" "b"))).

(** What the store is to do to a content, in words: [nul_removed text t]
    says [t] is [text] without its null characters, the other
    characters kept in their order. *)
Definition nul_removed (text t : string) : Prop :=
  list_ascii_of_string t
  = filter (fun c => c <> "000"%char) (list_ascii_of_string text).

(** [stripped t stored]: [stored] is [t] without the white space at its
    two ends. *)
Definition stripped (t stored : string) : Prop :=
  exists before after,
    t = before +:+ stored +:+ after
    /\ all_chars isspace before = true
    /\ all_chars isspace after = true
    /\ (forall c, first_char stored = Some c -> isspace c = false)
    /\ (forall c, last_char stored = Some c -> isspace c = false).

Definition nul_removed_and_stripped (text stored : string) : Prop :=
  exists t, nul_removed text t /\ stripped t stored.

(* ===================================================================== *)
(** * Running the handlers: unfolding and case analysis *)
(* ===================================================================== *)

Ltac turn_unfold :=
  unfold send_message, new_chat, get_chat, get_history, handle_errors,
    send_message_body, create_chat, verify_chat_ownership, get_chat_messages,
    get_user_chats, scrape_sync, save_chat_metadata, get_chat_metadata,
    generate_response, add_message, update_chat_timestamp, datetime_now, uuid4,
    pass, bind, value, return_, raise, get_db, commit, oracle, emit in *.

Ltac turn_simpl :=
  cbn [db tick chats messages chat_metadata reply final events app] in *.

(** Case analysis on the innermost condition the handler branches on. *)
Ltac innermost c :=
  match c with
  | context [match ?d with _ => _ end] => innermost d
  | _ => destruct c eqn:?
  end.

Ltac turn_case :=
  match goal with
  | |- context [match ?c with _ => _ end] => innermost c
  | H : context [match ?c with _ => _ end] |- _ => innermost c
  end; turn_simpl.

Ltac turn_cases := turn_unfold; turn_simpl; repeat turn_case.


(* ===================================================================== *)
(** * Facts about the string primitives *)
(* ===================================================================== *)

Module PyStrFacts.

Lemma truthy_true s : truthy s = true <-> s <> "".
Proof. destruct s; simpl; split; congruence. Qed.

Lemma truthy_false s : truthy s = false <-> s = "".
Proof. destruct s; simpl; split; congruence. Qed.

Lemma slice_to_all n s : (len s <= n)%nat -> slice_to n s = s.
Proof.
  revert n; induction s as [|c s IH]; intros [|n] H; simpl in *; try lia; auto.
  f_equal. apply IH. lia.
Qed.

Lemma slice_to_len n s : (n <= len s)%nat -> len (slice_to n s) = n.
Proof.
  revert n; induction s as [|c s IH]; intros [|n] H; simpl in *; try lia.
  f_equal. apply IH. lia.
Qed.

Lemma len_app s t : len (s +:+ t) = (len s + len t)%nat.
Proof.
  induction s as [|c s IH]; [done|].
  change (S (len (s +:+ t)) = S (len s + len t)). by rewrite IH.
Qed.

(** Stripping removes nothing from a string that neither starts nor
    ends with white space. *)
Lemma lstrip_idem s : lstrip (lstrip s) = lstrip s.
Proof.
  induction s as [|c s IH]; simpl; auto.
  destruct (isspace c) eqn:E; auto. simpl. by rewrite E.
Qed.

Lemma rstrip_idem s : rstrip (rstrip s) = rstrip s.
Proof.
  induction s as [|c s IH]; simpl; auto.
  destruct (rstrip s) as [|d r] eqn:E.
  - destruct (isspace c) eqn:Ec; simpl; auto. by rewrite Ec.
  - simpl in *. rewrite IH. reflexivity.
Qed.

Lemma rstrip_nonspace_head c s :
  isspace c = false -> exists r, rstrip (String c s) = String c r.
Proof.
  intros Hc. simpl. destruct (rstrip s); rewrite ?Hc; eauto.
Qed.

Lemma lstrip_head s c r : lstrip s = String c r -> isspace c = false.
Proof.
  induction s as [|d s IH]; simpl; [discriminate|].
  destruct (isspace d) eqn:E; auto. intros [= -> ->]. done.
Qed.

Lemma lstrip_rstrip_lstrip s : lstrip (rstrip (lstrip s)) = rstrip (lstrip s).
Proof.
  destruct (lstrip s) as [|c r] eqn:E; [done|].
  pose proof (lstrip_head _ _ _ E) as Hc.
  destruct (rstrip_nonspace_head c r Hc) as [r' ->]. simpl. by rewrite Hc.
Qed.

Lemma strip_idem s : strip (strip s) = strip s.
Proof. unfold strip. by rewrite lstrip_rstrip_lstrip, rstrip_idem. Qed.

End PyStrFacts.

Import PyStrFacts.

(** The primitives on small inputs. *)
Example strip_both_ends : strip (String "009" "  a b " +:+ String "010" "") = "a b".
Proof. reflexivity. Qed.

Example strip_keeps_nul : strip (String "000" " a") = String "000" " a".
Proof. reflexivity. Qed.

Example sanitize_drops_nul_then_strips :
  sanitize_db_input (String "000" " a" +:+ String "000" "b ") = "ab".
Proof. reflexivity. Qed.

Example sanitize_blank : sanitize_db_input "   " = "".
Proof. reflexivity. Qed.

Example slice_short : slice_to 50 "hi" = "hi".
Proof. reflexivity. Qed.

(** The scenario of a first question about a page and a follow-up in
    the same chat: the second turn reuses the cached page and the chat
    ends with four messages. *)
Example two_turn_scenario :
  let o1 := send_message demo_world 7 (ask_about "https://example.com" "Summarize this page")
              init_state in
  let o2 := send_message demo_world 7 (ask_in "chat-0" "What was the title?") (final o1) in
  reply o1 = JsonMessage " hi " "chat-0"
  /\ reply o2 = JsonMessage " hi " "chat-0"
  /\ page_contexts (events o2) = [Some "page"]
  /\ map role_content (list_messages "chat-0" (final o2))
     = [("user", "Summarize this page"); ("assistant", "hi");
        ("user", "What was the title?"); ("assistant", "hi")].
Proof. cbv zeta. split_and!; vm_compute; reflexivity. Qed.


(* ===================================================================== *)
(** * Every turn ends in one of the seven ways *)
(* ===================================================================== *)

Ltac norm_hyps :=
  repeat match goal with
    | H : truthy _ = true |- _ => apply truthy_true in H
    | H : truthy _ = false |- _ => apply truthy_false in H
    | H : bool_decide _ = true |- _ => apply bool_decide_eq_true in H
    | H : bool_decide _ = false |- _ => apply bool_decide_eq_false in H
    end.

Lemma not_supplied_none (data : gmap string string) :
  data !! "chat_id" = None -> chat_id_supplied data = false.
Proof. unfold chat_id_supplied. by intros ->. Qed.

Lemma not_supplied_empty (data : gmap string string) :
  data !! "chat_id" = Some "" -> chat_id_supplied data = false.
Proof. unfold chat_id_supplied. by intros ->. Qed.

Lemma not_owner_none (d : DB) (c : string) (user_id : Z) :
  chats d !! c = None ->
  forall row, chats d !! c = Some row -> chat_user_id row <> user_id.
Proof. congruence. Qed.

Lemma not_owner_other (d : DB) (c : string) (user_id : Z) (r : ChatRow) :
  chats d !! c = Some r -> chat_user_id r <> user_id ->
  forall row, chats d !! c = Some row -> chat_user_id row <> user_id.
Proof. congruence. Qed.

Create HintDb turn discriminated.
#[local] Hint Resolve not_supplied_none not_supplied_empty not_owner_none
  not_owner_other : turn.
#[local] Hint Constructors resolves page_context : turn.

(** Prove [turn ... o] by building the outcome a rule gives and then
    checking that it is [o]. *)
Ltac same_outcome :=
  unfold with_turn, with_scrape, with_new_chat, history_of;
  cbn [db tick chats messages chat_metadata app];
  rewrite <- ?app_assoc, ?length_app; cbn [length app];
  rewrite ?Nat.add_1_r;
  reflexivity.

Ltac by_rule :=
  lazymatch goal with
  | |- turn ?w ?u ?d ?s ?o =>
      let H := fresh "Hrule" in
      eassert (H : turn w u d s _);
      [ first [ eapply TurnNoData; solve [eauto with turn]
              | eapply TurnNoPrompt; solve [eauto with turn]
              | eapply TurnDenied; solve [eauto with turn]
              | eapply TurnCollision; solve [eauto with turn]
              | eapply TurnFetchFailed; solve [eauto with turn]
              | eapply TurnGenerationFailed; solve [eauto with turn]
              | eapply TurnAnswered; solve [eauto with turn] ]
      | refine (eq_ind _ (turn w u d s) H _ _); same_outcome ]
  end.

Section Totality.

Variable w : World.

Lemma turn_total (user_id : Z) (data : gmap string string) (s : State) :
  turn w user_id data s (send_message w user_id data s).
Proof.
  turn_cases; fold (request_prompt data) in *; fold (request_url data) in *;
    norm_hyps; subst.
  all: by_rule.
Qed.

End Totality.

(* ===================================================================== *)
(** * Single turns *)
(* ===================================================================== *)

(** Case analysis on how a turn ended, down to how the chat and the
    page context were resolved. *)
Ltac turn_inv H :=
  let Hres := fresh "Hres" in
  let Hctx := fresh "Hctx" in
  destruct H as
    [ ? | ? ? | ? ? ? ? ? | ? ? ? ?
    | ? ? ? ? ? Hres ? ? | ? ? ? ? ? ? ? ? Hres Hctx ?
    | ? ? ? ? ? ? ? ? Hres Hctx ? ];
  try destruct Hres; try destruct Hctx;
  unfold with_turn, with_scrape, with_new_chat in *;
  cbn [reply final events db tick chats messages chat_metadata app In
       List.filter is_write is_generate is_scrape] in *.

Ltac turn_analysis w user_id data s :=
  let Ht := fresh "Ht" in
  let o := fresh "o" in
  pose proof (turn_total w user_id data s) as Ht;
  cbv zeta;
  set (o := send_message w user_id data s) in *; clearbody o;
  turn_inv Ht.

Lemma resolves_turn_chat_id (w : World) (user_id : Z) (data : gmap string string)
    (s : State) (cid : string) (s1 : State) (ev1 : list Event) :
  resolves w user_id data s cid s1 ev1 -> turn_chat_id w data s = cid.
Proof.
  unfold turn_chat_id, chat_id_supplied.
  destruct 1 as [c row Hc Hne _ _ | Hs _].
  - rewrite Hc. apply truthy_true in Hne. by rewrite Hne.
  - unfold chat_id_supplied in Hs.
    destruct (data !! "chat_id") as [c|]; [by rewrite Hs | done].
Qed.

Lemma resolves_keeps_cache (w : World) (user_id : Z) (data : gmap string string)
    (s : State) (cid : string) (s1 : State) (ev1 : list Event) :
  resolves w user_id data s cid s1 ev1 ->
  chat_metadata (db s1) = chat_metadata (db s)
  /\ messages (db s1) = messages (db s)
  /\ page_contexts ev1 = [].
Proof. by destruct 1. Qed.

Section Turn.

Variable w : World.

(** C7. A turn whose prompt is empty once trimmed (or missing) is
    answered 400 and leaves nothing behind: the state, clock position
    included, is the one before the call and no collaborator was
    called, so no chat was created, no message or cache row written,
    and neither the scraper nor the generator ran. *)
Theorem empty_prompt_rejected (user_id : Z) (data : gmap string string) (s : State) :
  request_prompt data = "" ->
  let o := send_message w user_id data s in
  status_of (reply o) = 400
  /\ (reply o = JsonError 400 "No data provided"
      \/ reply o = JsonError 400 "Prompt is required")
  /\ final o = s
  /\ events o = [].
Proof.
  intros Hp; cbv zeta. unfold request_prompt in Hp.
  unfold send_message, handle_errors, send_message_body, bind, return_, pass, value.
  destruct (bool_decide (data = ∅)); turn_simpl; [by auto|].
  rewrite Hp. cbn. by auto.
Qed.

(** C2. With a chat id supplied (not empty, so that [if chat_id:]
    takes it), a chat that does not exist and a chat owned by somebody
    else are answered alike: the same reply
    (the 404 "Chat not found or access denied" once the prompt is
    valid), and in both runs the state is untouched and no
    collaborator is called. *)
Theorem missing_and_foreign_chat_alike (user_id : Z) (data : gmap string string)
    (chat_id : string) (row : ChatRow) (s_missing s_foreign : State) :
  data !! "chat_id" = Some chat_id ->
  chat_id <> "" ->
  chats (db s_missing) !! chat_id = None ->
  chats (db s_foreign) !! chat_id = Some row ->
  chat_user_id row <> user_id ->
  let o1 := send_message w user_id data s_missing in
  let o2 := send_message w user_id data s_foreign in
  reply o1 = reply o2
  /\ (request_prompt data <> "" ->
      reply o1 = JsonError 404 "Chat not found or access denied")
  /\ final o1 = s_missing /\ events o1 = []
  /\ final o2 = s_foreign /\ events o2 = [].
Proof.
  intros Hid Hne Hmiss Hfor Hown; cbv zeta.
  apply truthy_true in Hne. unfold request_prompt.
  unfold send_message, handle_errors, send_message_body, verify_chat_ownership,
    bind, return_, pass, value, get_db.
  case_bool_decide as Hempty; turn_simpl.
  { subst data. by rewrite lookup_empty in Hid. }
  destruct (truthy (strip (default "" (data !! "prompt")))) eqn:Hp; turn_simpl.
  - rewrite Hid, Hne, Hmiss, Hfor.
    rewrite bool_decide_eq_false_2 by done. turn_simpl. by auto 10.
  - apply truthy_false in Hp. by auto 10.
Qed.

(** C3. When the generator fails the turn is answered 500 with the
    generator's error; no message row is added, no chat row gets a
    later [updated_at] (a chat created by this very turn still has
    [updated_at = created_at]), and a cache row this turn wrote for
    its own URL is still what the cache lookup returns. *)
Theorem generation_failure_keeps_cache (user_id : Z) (data : gmap string string)
    (s : State) (p : string) (c : option string) (h : list (string * string))
    (error : string) :
  let o := send_message w user_id data s in
  In (EvGenerate p c h (AiFail error)) (events o) ->
  reply o = JsonError 500 ("Failed to generate response: " +:+ error)
  /\ messages (db (final o)) = messages (db s)
  /\ (forall cid row, chats (db (final o)) !! cid = Some row ->
        chats (db s) !! cid = Some row
        \/ (chats (db s) !! cid = None
            /\ chat_updated_at row = chat_created_at row))
  /\ (forall cid row, chats (db s) !! cid = Some row ->
        chats (db (final o)) !! cid = Some row)
  /\ (forall cid url content, In (EvSaveMetadata cid url content) (events o) ->
        url = request_url data
        /\ (exists title, In (EvScrape url (ScrapeOk content title)) (events o))
        /\ scrape_cache cid (final o)
           = Some (mkMeta (sanitize_db_input url) (sanitize_db_input content))).
Proof.
  unfold scrape_cache. turn_analysis w user_id data s.
  all: intros Hin; destruct_or?; simplify_eq.
  all: split_and!; try done.
  all: try (intros cid' row'; rewrite ?lookup_insert; intros;
            try case_decide; simplify_eq; by auto).
  all: intros cid' url' content' Hsave; destruct_or?; simplify_eq.
  all: split_and!; eauto; by rewrite lookup_insert_eq.
Qed.

(** C1, as the code has it. When the scraper fails the turn is
    answered 400 with the scraper's error; the message table and the
    scrape cache are as before the call and the generator is not
    called. With a chat id supplied nothing at all was written; with
    none, the new chat row was inserted before the scrape and stays. *)
Theorem fetch_failure_aborts (user_id : Z) (data : gmap string string)
    (s : State) (url error : string) :
  let o := send_message w user_id data s in
  In (EvScrape url (ScrapeFail error)) (events o) ->
  reply o = JsonError 400 ("Failed to scrape website: " +:+ error)
  /\ messages (db (final o)) = messages (db s)
  /\ chat_metadata (db (final o)) = chat_metadata (db s)
  /\ List.filter is_generate (events o) = []
  /\ (chat_id_supplied data = true ->
      db (final o) = db s /\ List.filter is_write (events o) = [])
  /\ (chat_id_supplied data = false ->
      chats (db s) !! uuid w (tick s) = None
      /\ chats (db (final o))
         = <[uuid w (tick s) :=
               mkChat user_id (clock w (S (tick s))) (clock w (S (tick s)))]>
             (chats (db s))
      /\ List.filter is_write (events o) = [EvCreateChat (uuid w (tick s)) user_id]).
Proof.
  turn_analysis w user_id data s.
  all: intros Hin; destruct_or?; simplify_eq.
  - assert (chat_id_supplied data = true) as ->.
    { unfold chat_id_supplied.
      match goal with H : data !! "chat_id" = Some _ |- _ => rewrite H end.
      by apply truthy_true. }
    by split_and!.
  - match goal with H : chat_id_supplied data = false |- _ => rewrite H end.
    by split_and!.
Qed.



(** C6, as the code has it. A turn without URL hands the generator
    the cached content of its chat when there is a cache row with
    non-empty content, and no page context when there is no row or the
    row's content is empty. The generator is called unless the request
    was rejected at validation, at the ownership check or at chat
    creation; a missing URL or cache never stops the turn. *)
Theorem cached_context_reused (user_id : Z) (data : gmap string string) (s : State) :
  request_url data = "" ->
  let o := send_message w user_id data s in
  let cid := turn_chat_id w data s in
  (forall p c h r, In (EvGenerate p c h r) (events o) ->
     page_contexts (events o) = [c]
     /\ (forall row, scrape_cache cid s = Some row ->
           last_scraped_content row <> "" -> c = Some (last_scraped_content row))
     /\ (forall row, scrape_cache cid s = Some row ->
           last_scraped_content row = "" -> c = None)
     /\ (scrape_cache cid s = None -> c = None))
  /\ (page_contexts (events o) = [] ->
      In (reply o) [JsonError 400 "No data provided";
                    JsonError 400 "Prompt is required";
                    JsonError 404 "Chat not found or access denied";
                    JsonError 500 "Internal server error"]).
Proof.
  intros Hurl. unfold scrape_cache.
  pose proof (turn_total w user_id data s) as Ht. cbv zeta.
  set (o := send_message w user_id data s) in *. clearbody o.
  destruct Ht as
    [ ? | ? ? | ? ? ? ? ? | ? ? ? ?
    | ? ? ? ? ? Hres ? ? | ? ? ? ? ? ? ? ? Hres Hctx ?
    | ? ? ? ? ? ? ? ? Hres Hctx ? ];
    cbn [reply events In]; try (split; [intros ? ? ? ? []|]; cbn; by auto 6).
  - done.
  - rewrite (resolves_turn_chat_id _ _ _ _ _ _ _ Hres).
    destruct Hres; destruct Hctx; try done.
    all: unfold with_new_chat in *.
    all: cbn [page_contexts omap app db chat_metadata In list_omap] in *.
    all: split; [|done].
    all: intros p' c' h' r' Hin; destruct_or?; simplify_eq.
    all: split_and!; try done; intros; simplify_eq; done.
  - rewrite (resolves_turn_chat_id _ _ _ _ _ _ _ Hres).
    destruct Hres; destruct Hctx; try done.
    all: unfold with_new_chat in *.
    all: cbn [page_contexts omap app db chat_metadata In list_omap] in *.
    all: split; [|done].
    all: intros p' c' h' r' Hin; destruct_or?; simplify_eq.
    all: split_and!; try done; intros; simplify_eq; done.
Qed.

End Turn.

(** ** The theorems at work on concrete turns *)

Lemma empty_prompt_rejected_witness :
  request_prompt (ask "  ") = ""
  /\ final (send_message demo_world 7 (ask "  ") init_state) = init_state.
Proof.
  split; [reflexivity|].
  apply (empty_prompt_rejected demo_world 7 (ask "  ") init_state).
  reflexivity.
Defined.

Lemma missing_and_foreign_chat_alike_witness :
  let s_foreign := final (new_chat demo_world 8 init_state) in
  let o1 := send_message demo_world 7 (ask_in "chat-0" "hi") init_state in
  let o2 := send_message demo_world 7 (ask_in "chat-0" "hi") s_foreign in
  chats (db s_foreign) !! "chat-0" = Some (mkChat 8 1 1)
  /\ reply o1 = reply o2.
Proof.
  split; [reflexivity|].
  refine (proj1 (missing_and_foreign_chat_alike demo_world 7 (ask_in "chat-0" "hi")
                   "chat-0" (mkChat 8 1 1) init_state
                   (final (new_chat demo_world 8 init_state)) _ _ _ _ _));
    [reflexivity | discriminate | reflexivity | reflexivity | simpl; lia].
Defined.

Lemma generation_failure_keeps_cache_witness :
  let o := send_message mute_world 7 (ask_about "http://a" "hi") init_state in
  In (EvGenerate "hi" (Some " page ") [] (AiFail "timeout")) (events o)
  /\ reply o = JsonError 500 "Failed to generate response: timeout"
  /\ scrape_cache "chat-0" (final o) = Some (mkMeta "http://a" "page").
Proof.
  assert (Hgen : In (EvGenerate "hi" (Some " page ") [] (AiFail "timeout"))
                    (events (send_message mute_world 7 (ask_about "http://a" "hi")
                               init_state)))
    by (vm_compute; tauto).
  destruct (generation_failure_keeps_cache mute_world 7 (ask_about "http://a" "hi")
              init_state _ _ _ _ Hgen) as (Hreply & _ & _ & _ & Hcache).
  split_and!; [exact Hgen | exact Hreply |].
  apply (Hcache "chat-0" "http://a" " page "). vm_compute; tauto.
Defined.

Lemma fetch_failure_aborts_witness :
  let o := send_message offline_world 7 (ask_in_about "chat-0" "http://a" "hi")
             (final (new_chat offline_world 7 init_state)) in
  In (EvScrape "http://a" (ScrapeFail "Invalid URL format")) (events o)
  /\ reply o = JsonError 400 "Failed to scrape website: Invalid URL format".
Proof.
  assert (Hin : In (EvScrape "http://a" (ScrapeFail "Invalid URL format"))
                   (events (send_message offline_world 7
                              (ask_in_about "chat-0" "http://a" "hi")
                              (final (new_chat offline_world 7 init_state)))))
    by (vm_compute; tauto).
  split; [exact Hin|].
  apply (fetch_failure_aborts offline_world 7 _ _ _ _ Hin).
Defined.

(** C1 as stated fails on a turn without chat id: when the scraper
    fails, the chat row [create_chat] inserted is already committed. *)
Lemma fetch_failure_after_chat_creation :
  let s := init_state in
  let o := send_message offline_world 7 (ask_about "http://a" "hi") s in
  In (EvScrape "http://a" (ScrapeFail "Invalid URL format")) (events o)
  /\ List.filter is_write (events o) = [EvCreateChat "chat-0" 7]
  /\ chats (db s) !! "chat-0" = None
  /\ chats (db (final o)) !! "chat-0" = Some (mkChat 7 1 1)
  /\ db (final o) <> db s.
Proof.
  split_and!; try (vm_compute; tauto).
  intros Heq. apply (f_equal (fun d => chats d !! "chat-0")) in Heq.
  vm_compute in Heq. discriminate.
Qed.


Lemma cached_context_reused_witness :
  let s := final (send_message demo_world 7 (ask_about "http://a" "hi") init_state) in
  let o := send_message demo_world 7 (ask_in "chat-0" "more") s in
  request_url (ask_in "chat-0" "more") = ""
  /\ page_contexts (events o) = [Some "page"].
Proof.
  split; [reflexivity|].
  refine (proj1 (proj1 (cached_context_reused demo_world 7 (ask_in "chat-0" "more")
            (final (send_message demo_world 7 (ask_about "http://a" "hi") init_state))
            eq_refl) "more" (Some "page")
            [("user", "hi"); ("assistant", "hi")] (AiOk " hi ") _)).
  vm_compute; tauto.
Defined.

(** C6 as stated fails when the cached content is empty: the cache row
    exists, yet the generator gets no page context rather than the
    stored (empty) content. *)
Lemma empty_cache_not_passed :
  let s := final (send_message blank_world 7 (ask_about "http://a" "hi") init_state) in
  let o := send_message blank_world 7 (ask_in "chat-0" "more") s in
  request_url (ask_in "chat-0" "more") = ""
  /\ scrape_cache "chat-0" s = Some (mkMeta "http://a" "")
  /\ page_contexts (events o) = [None]
  /\ page_contexts (events o) <> [Some ""].
Proof. split_and!; try (vm_compute; reflexivity). vm_compute. discriminate. Qed.

(* ===================================================================== *)
(** * The clock and the order of the message table *)
(* ===================================================================== *)

Lemma order_by_sorted {A} (key : A -> Z) (l : list A) :
  StronglySorted (fun a b => key a < key b) l -> order_by key l = l.
Proof.
  induction 1 as [|x l Hl IH Hx]; [done|].
  unfold order_by in *. cbn [foldr]. rewrite IH.
  destruct Hx as [|y l' Hxy _]; [done|].
  cbn [insert_by]. destruct (Z.leb_spec (key x) (key y)); [done|lia].
Qed.

Lemma sorted_filter {A} (R : A -> A -> Prop) (P : A -> Prop)
    `{forall x, Decision (P x)} (l : list A) :
  StronglySorted R l -> StronglySorted R (filter P l).
Proof.
  induction 1 as [|x l Hl IH Hx]; [constructor|].
  rewrite filter_cons. case_decide; [|done].
  constructor; [done|]. rewrite Forall_forall in *.
  intros y Hy. apply list_elem_of_filter in Hy as [_ Hy]. auto.
Qed.

Section Order.

Variable w : World.
Hypothesis clock_increasing : strictly_increasing (clock w).

Lemma clock_mono (i j : nat) : (i <= j)%nat -> clock w i <= clock w j.
Proof.
  intros Hij. destruct (decide (i = j)) as [->|]; [lia|].
  assert (clock w i < clock w j) by (apply clock_increasing; lia). lia.
Qed.

(** In a consistent state the listing of a chat is its rows in
    insertion order. *)
Lemma listing_in_insertion_order (cid : string) (s : State) :
  consistent w s ->
  list_messages cid s = filter (fun m => msg_chat_id m = cid) (messages (db s)).
Proof.
  intros [_ _ Hord]. unfold list_messages, select_messages.
  apply order_by_sorted. by apply sorted_filter.
Qed.

Lemma consistent_init : consistent w init_state.
Proof.
  split; cbn.
  - constructor.
  - intros cid row. by rewrite lookup_empty.
  - constructor.
Qed.

Lemma consistent_later (s : State) (n : nat) :
  consistent w s -> (tick s <= n)%nat -> consistent w (mkState (db s) n).
Proof.
  intros [Hm Hc Ho] Hn. pose proof (clock_mono _ _ Hn).
  split; cbn; [| |done].
  - eapply Forall_impl; [exact Hm|]. cbn. intros; lia.
  - intros cid row Hrow. specialize (Hc _ _ Hrow). lia.
Qed.

Lemma consistent_new_chat (user_id : Z) (s : State) :
  consistent w s -> consistent w (with_new_chat w user_id s).
Proof.
  intros [Hm Hc Ho].
  assert (clock w (tick s) <= clock w (S (S (tick s)))) by (apply clock_mono; lia).
  assert (clock w (S (tick s)) < clock w (S (S (tick s))))
    by (apply clock_increasing; lia).
  split; cbn; [| |done].
  - eapply Forall_impl; [exact Hm|]. cbn. intros; lia.
  - intros cid row. rewrite lookup_insert. case_decide.
    + intros [= <-]. cbn. lia.
    + intros Hrow. specialize (Hc _ _ Hrow). lia.
Qed.

Lemma consistent_scrape (cid url content : string) (s : State) :
  consistent w s -> consistent w (with_scrape cid url content s).
Proof.
  intros Hs.
  apply (consistent_later s (S (tick s))) in Hs; [|lia].
  destruct Hs as [Hm Hc Ho]. by split.
Qed.

Lemma consistent_turn (cid prompt response : string) (s : State) :
  consistent w s -> consistent w (with_turn w cid prompt response s).
Proof.
  intros [Hm Hc Ho]. set (t := tick s) in *.
  assert (clock w t < clock w (S t)) by (apply clock_increasing; lia).
  assert (clock w (S t) < clock w (S (S t))) by (apply clock_increasing; lia).
  assert (clock w (S (S t)) < clock w (S (S (S t)))) by (apply clock_increasing; lia).
  assert (clock w (S (S (S t))) < clock w (S (S (S (S t)))))
    by (apply clock_increasing; lia).
  split; unfold with_turn; cbn [db tick messages chats]; fold t.
  - apply Forall_app; split.
    + eapply Forall_impl; [exact Hm|]. cbn. intros; lia.
    + repeat constructor; cbn; lia.
  - intros c row. rewrite lookup_alter. case_decide.
    + subst c. destruct (chats (db s) !! cid) as [row0|] eqn:Hrow; [|done].
      intros [= <-]. cbn. specialize (Hc _ _ Hrow). lia.
    + intros Hrow. specialize (Hc _ _ Hrow). lia.
  - apply StronglySorted_app; split_and!; [|done|].
    + intros m1 m2 Hm1 Hm2. rewrite Forall_forall in Hm.
      specialize (Hm _ Hm1). unfold earlier.
      apply elem_of_cons in Hm2 as [->|Hm2]; [cbn; lia|].
      apply list_elem_of_singleton in Hm2 as ->. cbn; lia.
    + repeat constructor. unfold earlier; cbn. lia.
Qed.

Lemma resolves_consistent (user_id : Z) (data : gmap string string) (s : State)
    (cid : string) (s1 : State) (ev1 : list Event) :
  resolves w user_id data s cid s1 ev1 -> consistent w s -> consistent w s1.
Proof. destruct 1; auto using consistent_new_chat. Qed.

Lemma page_context_consistent (data : gmap string string) (cid : string) (s : State)
    (ctx : option string) (s2 : State) (ev2 : list Event) :
  page_context w data cid s ctx s2 ev2 -> consistent w s -> consistent w s2.
Proof. destruct 1; auto using consistent_scrape. Qed.

Lemma turn_consistent (user_id : Z) (data : gmap string string) (s : State) :
  consistent w s -> consistent w (final (send_message w user_id data s)).
Proof.
  intros Hs. destruct (turn_total w user_id data s); cbn [final]; try done.
  - apply consistent_later; [done|lia].
  - eapply resolves_consistent in Hs; [|done].
    apply consistent_later; [done|lia].
  - eapply resolves_consistent in Hs; [|done].
    eapply page_context_consistent in Hs; [|done].
    apply consistent_later; [done|lia].
  - eapply resolves_consistent in Hs; [|done].
    eapply page_context_consistent in Hs; [|done].
    by apply consistent_turn.
Qed.

Lemma serve_consistent (r : Request) (s : State) :
  consistent w s -> consistent w (final (serve w r s)).
Proof.
  intros Hs. destruct r as [user_id data|user_id|user_id cid|user_id]; cbn [serve].
  - by apply turn_consistent.
  - done.
  - turn_cases; done.
  - turn_cases.
    + apply consistent_later; [done|lia].
    + by apply consistent_new_chat.
Qed.

Lemma reachable_consistent (s : State) (tr : list Event) :
  reachable w s tr -> consistent w s.
Proof.
  induction 1 as [|s tr r _ IH]; [apply consistent_init|].
  by apply serve_consistent.
Qed.

End Order.

(* ===================================================================== *)
(** * Successful turns and the message listing *)
(* ===================================================================== *)

Section Answered.

Variable w : World.

(** A turn that answers ends in the three closing writes, made on a
    state that differs from the starting one by at most a new chat
    row and a cache row. *)
Lemma answered_inv (user_id : Z) (data : gmap string string) (s : State)
    (response cid : string) :
  let o := send_message w user_id data s in
  reply o = JsonMessage response cid ->
  exists s2,
    final o = with_turn w cid (request_prompt data) response s2
    /\ messages (db s2) = messages (db s)
    /\ (tick s <= tick s2)%nat
    /\ is_Some (chats (db s2) !! cid)
    /\ (forall row, chats (db s) !! cid = Some row -> chats (db s2) !! cid = Some row)
    /\ (strictly_increasing (clock w) -> consistent w s -> consistent w s2).
Proof.
  cbv zeta. intros Hreply.
  destruct (turn_total w user_id data s)
    as [ | | | | | | c s1 ev1 ctx s2 ev2 r Hp Hres Hctx Hgen ];
    cbn [reply] in Hreply; try discriminate.
  injection Hreply as -> ->. exists s2. cbn [final].
  split; [done|].
  assert (messages (db s1) = messages (db s) /\ (tick s <= tick s1)%nat
          /\ is_Some (chats (db s1) !! cid)
          /\ (forall row, chats (db s) !! cid = Some row ->
                          chats (db s1) !! cid = Some row)) as (Hm1 & Ht1 & Hc1 & Hk1).
  { destruct Hres; cbn; split_and!; eauto; try lia.
    - by rewrite lookup_insert_eq.
    - intros row Hrow. congruence. }
  assert (messages (db s2) = messages (db s1) /\ (tick s1 <= tick s2)%nat
          /\ chats (db s2) = chats (db s1)) as (Hm2 & Ht2 & Hc2).
  { destruct Hctx; cbn; split_and!; eauto; lia. }
  rewrite Hm2, Hc2. split_and!; try done; [lia|].
  intros Hclock Hs.
  eapply page_context_consistent; [done..|].
  eapply resolves_consistent; done.
Qed.

Hypothesis clock_increasing : strictly_increasing (clock w).

(** One answered turn: the listing of its chat grows by the user row
    and then the assistant row, both later than every row before, and
    the chat's [updated_at] moves forward. *)
Lemma answered_listing (user_id : Z) (data : gmap string string) (s : State)
    (response cid : string) :
  let o := send_message w user_id data s in
  consistent w s ->
  reply o = JsonMessage response cid ->
  exists m1 m2,
    list_messages cid (final o) = list_messages cid s ++ [m1; m2]
    /\ role_content m1 = ("user", sanitize_db_input (request_prompt data))
    /\ role_content m2 = ("assistant", sanitize_db_input response)
    /\ updated_at_advanced cid s (final o).
Proof.
  cbv zeta. intros Hs Hreply.
  pose proof (turn_consistent w clock_increasing user_id data s Hs) as Hfin.
  destruct (answered_inv user_id data s response cid Hreply)
    as (s2 & Hfinal & Hmsgs & Htick & [row2 Hrow2] & Hkept & Hcons).
  specialize (Hcons clock_increasing Hs).
  rewrite (listing_in_insertion_order w cid _ Hfin).
  rewrite (listing_in_insertion_order w cid _ Hs).
  rewrite Hfinal. unfold with_turn. cbn [db messages chats]. rewrite Hmsgs.
  eexists _, _. split_and!.
  - rewrite filter_app. f_equal.
    rewrite filter_cons_True by done. by rewrite filter_cons_True by done.
  - done.
  - done.
  - exists (mkChat (chat_user_id row2) (chat_created_at row2)
                   (clock w (S (S (S (tick s2)))))).
    destruct Hcons as [_ Hpast _]. pose proof (Hpast _ _ Hrow2) as Hr2.
    assert (clock w (tick s2) < clock w (S (S (S (tick s2)))))
      by (apply clock_increasing; lia).
    cbn [db chats]. split_and!.
    + by rewrite lookup_alter_eq, Hrow2.
    + cbn. lia.
    + intros row Hrow. apply Hkept in Hrow. simplify_eq. cbn. lia.
Qed.

End Answered.

Lemma demo_clock_increasing : strictly_increasing (clock demo_world).
Proof. intros i j Hij. cbn. lia. Defined.

(** C4 as stated fails on the contents: the assistant row is not the
    generator's output when that output has surrounding white space. *)
Lemma assistant_row_differs_from_reply :
  let o := send_message demo_world 7 (ask "hi") init_state in
  reply o = JsonMessage " hi " "chat-0"
  /\ map role_content (list_messages "chat-0" (final o))
     = [("user", "hi"); ("assistant", "hi")]
  /\ map role_content (list_messages "chat-0" (final o))
     <> [("user", "hi"); ("assistant", " hi ")].
Proof. split_and!; [vm_compute; reflexivity..|]. vm_compute. discriminate. Qed.

(* ===================================================================== *)
(** * What the store keeps *)
(* ===================================================================== *)

Lemma sanitize_is_strip_remove_nul (text : string) :
  sanitize_db_input text = strip (remove_nul text).
Proof. unfold sanitize_db_input. by destruct text. Qed.

(* ===================================================================== *)
(** * The scrape cache over the life of the service *)
(* ===================================================================== *)

(** A request either leaves the cache table alone or is a turn whose
    trace shows the scraper succeeding and the cache write that
    follows it. *)
Lemma serve_cache (w : World) (r : Request) (s : State) :
  let o := serve w r s in
  chat_metadata (db (final o)) = chat_metadata (db s)
  \/ exists cid url content title pre post,
       events o = pre ++ EvScrape url (ScrapeOk content title)
                      :: EvSaveMetadata cid url content :: post
       /\ chat_metadata (db (final o))
          = <[cid := mkMeta (sanitize_db_input url) (sanitize_db_input content)]>
              (chat_metadata (db s)).
Proof.
  destruct r as [user_id data|user_id|user_id chat_id|user_id]; cbn [serve].
  - turn_analysis w user_id data s; try by left.
    all: right; eexists _, _, _, _.
    all: first [ by eexists [], _ | by eexists [_], _ ].
  - by left.
  - left. turn_cases; done.
  - left. turn_cases; done.
Qed.

(** C9, as the code has it. In every state the service can reach, each
    cache row is the sanitized form of what a successful scraper call
    returned: the trace holds that call, immediately followed by the
    cache write for that chat with the same URL and content, and the row
    is [sanitize_db_input] of that URL and of that content. *)
Theorem cache_holds_sanitized_fetch (w : World) (s : State) (tr : list Event) :
  reachable w s tr ->
  forall cid row,
    scrape_cache cid s = Some row ->
    exists url content title pre post,
      tr = pre ++ EvScrape url (ScrapeOk content title)
               :: EvSaveMetadata cid url content :: post
      /\ row = mkMeta (sanitize_db_input url) (sanitize_db_input content).
Proof.
  unfold scrape_cache.
  induction 1 as [|s tr r Hreach IH]; intros cid row Hrow.
  - cbn [init_state empty_db db chat_metadata] in Hrow.
    by rewrite lookup_empty in Hrow.
  - destruct (serve_cache w r s)
      as [Hsame | (cid' & url & content & title & pre & post & Hev & Hmeta)].
    + rewrite Hsame in Hrow.
      destruct (IH _ _ Hrow) as (url & content & title & pre & post & -> & ->).
      exists url, content, title, pre, (post ++ events (serve w r s)).
      split; [|done]. by rewrite <- app_assoc.
    + rewrite Hmeta, lookup_insert in Hrow. case_decide.
      * subst cid'. injection Hrow as <-.
        exists url, content, title, (tr ++ pre), post.
        split; [|done]. by rewrite Hev, <- app_assoc.
      * destruct (IH _ _ Hrow) as (url0 & content0 & title0 & pre0 & post0 & -> & ->).
        exists url0, content0, title0, pre0, (post0 ++ events (serve w r s)).
        split; [|done]. by rewrite <- app_assoc.
Qed.

Lemma cache_holds_sanitized_fetch_witness :
  let o := send_message demo_world 7 (ask_about "http://a" "hi") init_state in
  reachable demo_world (final o) ([] ++ events o)
  /\ scrape_cache "chat-0" (final o) = Some (mkMeta "http://a" "page")
  /\ exists url content title pre post,
       [] ++ events o = pre ++ EvScrape url (ScrapeOk content title)
                            :: EvSaveMetadata "chat-0" url content :: post
       /\ mkMeta "http://a" "page"
          = mkMeta (sanitize_db_input url) (sanitize_db_input content).
Proof.
  assert (Hreach : reachable demo_world
                     (final (send_message demo_world 7 (ask_about "http://a" "hi")
                               init_state))
                     ([] ++ events (send_message demo_world 7
                                      (ask_about "http://a" "hi") init_state)))
    by exact (reach_serve demo_world init_state []
                (PostMessage 7 (ask_about "http://a" "hi")) (reach_init demo_world)).
  split_and!; [exact Hreach | reflexivity |].
  exact (cache_holds_sanitized_fetch demo_world _ _ Hreach "chat-0"
           (mkMeta "http://a" "page") eq_refl).
Defined.

(** C9 as stated fails: the cache row need not hold the scraper's
    output unmodified. Here the only scraper call returned [" page "]
    and the row holds ["page"]. *)
Lemma cache_row_not_verbatim :
  let o := send_message demo_world 7 (ask_about "http://a" "hi") init_state in
  reachable demo_world (final o) ([] ++ events o)
  /\ scrape_cache "chat-0" (final o) = Some (mkMeta "http://a" "page")
  /\ List.filter is_scrape (events o)
     = [EvScrape "http://a" (ScrapeOk " page " "title")]
  /\ ~ exists url title,
         In (EvScrape url (ScrapeOk "page" title)) ([] ++ events o).
Proof.
  split_and!; [|reflexivity|reflexivity|].
  - exact (reach_serve demo_world init_state []
             (PostMessage 7 (ask_about "http://a" "hi")) (reach_init demo_world)).
  - intros (url & title & Hin). vm_compute in Hin.
    destruct_or?; try discriminate; done.
Qed.

(* ===================================================================== *)
(** * Previews *)
(* ===================================================================== *)

Lemma append_empty_r (s : string) : s +:+ "" = s.
Proof.
  induction s as [|c s IH]; [done|].
  change (String c (s +:+ "") = String c s). by rewrite IH.
Qed.

(** The preview [get_history] computes: "New Chat" without messages,
    the first content unchanged up to 50 characters, else its first 50
    characters and an ellipsis. *)
Lemma history_preview_spec (msgs : list MessageRow) :
  (msgs = [] -> preview msgs = "New Chat")
  /\ (forall first rest, msgs = first :: rest ->
        ((len (msg_content first) <= 50)%nat -> preview msgs = msg_content first)
        /\ ((50 < len (msg_content first))%nat ->
            preview msgs = slice_to 50 (msg_content first) +:+ "..."
            /\ len (slice_to 50 (msg_content first)) = 50%nat)).
Proof.
  split; [by intros ->|]. intros first rest ->. unfold preview. split; intros Hlen.
  - destruct (Nat.ltb_spec 50 (len (msg_content first))); [lia|].
    by rewrite append_empty_r, slice_to_all.
  - destruct (Nat.ltb_spec 50 (len (msg_content first))); [|lia].
    split; [done|]. apply slice_to_len. lia.
Qed.

(** Every entry of the [/history] listing carries that preview of its
    chat's messages. *)
Lemma get_history_previews (user_id : Z) (s : State) :
  exists entries,
    reply (get_history user_id s) = JsonHistory entries
    /\ Forall (fun e => entry_preview e = preview (list_messages (entry_chat_id e) s))
              entries.
Proof.
  eexists. split; [reflexivity|].
  apply Forall_forall. intros e He.
  apply list_elem_of_In, in_map_iff in He as ([cid row] & <- & _). done.
Qed.

(** C8 on [Chat.get_preview]: the method appends the ellipsis to every
    first message, truncated or not; for the two-character content
    ["hi"] it answers ["hi..."] where the preview of [get_history]
    answers ["hi"]. *)
Theorem get_preview_always_appends :
  (forall id owner created updated first rest,
      get_preview (mkChatObj id owner created updated (Some (first :: rest)))
      = slice_to 50 (message_content first) +:+ "...")
  /\ get_preview (mkChatObj "c" 7 0 0 (Some [mkMsg 1 "c" "user" "hi" 0])) = "hi..."
  /\ preview [mkMessage 1 "c" "user" "hi" 0] = "hi"
  /\ get_preview (mkChatObj "c" 7 0 0 (Some [])) = "New Chat"
  /\ get_preview (mkChatObj "c" 7 0 0 None) = "New Chat".
Proof. by split_and!. Qed.

(* ===================================================================== *)
(** * Sanitized text *)
(* ===================================================================== *)

Lemma all_chars_lstrip (p : ascii -> bool) (s : string) :
  all_chars p s = true -> all_chars p (lstrip s) = true.
Proof.
  induction s as [|c s IH]; [done|]. cbn [all_chars lstrip].
  intros [Hc Hs]%andb_true_iff. destruct (isspace c); [auto|].
  cbn. by rewrite Hc, Hs.
Qed.

Lemma all_chars_rstrip (p : ascii -> bool) (s : string) :
  all_chars p s = true -> all_chars p (rstrip s) = true.
Proof.
  induction s as [|c s IH]; [done|]. cbn [all_chars rstrip].
  intros [Hc Hs]%andb_true_iff. specialize (IH Hs).
  destruct (rstrip s) as [|d r].
  - destruct (isspace c); [done|]. cbn. by rewrite Hc.
  - cbn [all_chars] in *. by rewrite Hc, IH.
Qed.

Lemma remove_nul_no_nul (s : string) :
  all_chars (fun c => negb (is_nul c)) (remove_nul s) = true.
Proof.
  induction s as [|c s IH]; [done|]. cbn [remove_nul].
  destruct (Ascii.eqb c "000") eqn:Hc; [done|].
  cbn [all_chars]. unfold is_nul at 1. by rewrite Hc.
Qed.

Lemma remove_nul_id (s : string) :
  all_chars (fun c => negb (is_nul c)) s = true -> remove_nul s = s.
Proof.
  induction s as [|c s IH]; [done|]. cbn [all_chars remove_nul].
  intros [Hc Hs]%andb_true_iff. unfold is_nul in Hc.
  destruct (Ascii.eqb c "000"); [done|]. by rewrite IH.
Qed.

Lemma rstrip_first (s : string) (c : ascii) :
  first_char (rstrip s) = Some c -> first_char s = Some c.
Proof.
  destruct s as [|d s]; [done|]. cbn [rstrip].
  destruct (rstrip s); [destruct (isspace d)|]; done.
Qed.

Lemma lstrip_first (s : string) (c : ascii) :
  first_char (lstrip s) = Some c -> isspace c = false.
Proof.
  destruct (lstrip s) as [|d r] eqn:E; [done|].
  intros [= <-]. by eapply lstrip_head.
Qed.

Lemma rstrip_last (s : string) (c : ascii) :
  last_char (rstrip s) = Some c -> isspace c = false.
Proof.
  induction s as [|d s IH]; [done|]. cbn [rstrip].
  destruct (rstrip s) as [|e r] eqn:E.
  - destruct (isspace d) eqn:Hd; [done|]. by intros [= <-].
  - cbn [last_char]. exact IH.
Qed.

Lemma strip_clean (s : string) :
  all_chars (fun c => negb (is_nul c)) s = true -> clean (strip s).
Proof.
  intros Hs. unfold strip. split.
  - by apply all_chars_rstrip, all_chars_lstrip.
  - intros c Hc. by apply rstrip_first, lstrip_first in Hc.
  - apply rstrip_last.
Qed.

Lemma rstrip_id (s : string) :
  (forall c, last_char s = Some c -> isspace c = false) -> rstrip s = s.
Proof.
  induction s as [|d s IH]; [done|]. intros Hlast. cbn [rstrip].
  destruct s as [|e s'].
  - cbn. by rewrite (Hlast d).
  - rewrite IH by (intros c Hc; by apply Hlast).
    done.
Qed.

Lemma lstrip_id (s : string) :
  (forall c, first_char s = Some c -> isspace c = false) -> lstrip s = s.
Proof.
  destruct s as [|d s]; [done|]. intros Hfirst. cbn. by rewrite (Hfirst d).
Qed.

Lemma clean_sanitize_id (s : string) : clean s -> sanitize_db_input s = s.
Proof.
  intros [Hnul Hfirst Hlast]. rewrite sanitize_is_strip_remove_nul.
  rewrite remove_nul_id by done. unfold strip.
  rewrite lstrip_id by done. by apply rstrip_id.
Qed.

Lemma sanitize_db_input_clean (text : string) : clean (sanitize_db_input text).
Proof. rewrite sanitize_is_strip_remove_nul. apply strip_clean, remove_nul_no_nul. Qed.

(** X1. What [sanitize_db_input] returns holds no null character and
    neither starts nor ends with white space, and sanitizing it again
    changes nothing. *)
Theorem sanitize_output_clean (text : string) :
  clean (sanitize_db_input text)
  /\ sanitize_db_input (sanitize_db_input text) = sanitize_db_input text.
Proof.
  pose proof (sanitize_db_input_clean text) as Hclean.
  split; [done|]. by apply clean_sanitize_id.
Qed.

(* ===================================================================== *)
(** * What every request keeps *)
(* ===================================================================== *)

Section Frame.

Variable w : World.

Lemma resolves_owner (user_id : Z) (data : gmap string string) (s : State)
    (cid : string) (s1 : State) (ev1 : list Event) :
  resolves w user_id data s cid s1 ev1 -> owned_by user_id cid s1.
Proof.
  destruct 1 as [c row ? ? Hrow Hown|? ?].
  - by exists row.
  - eexists. split; [apply lookup_insert_eq|done].
Qed.

Lemma page_context_chats (data : gmap string string) (cid : string) (s1 : State)
    (ctx : option string) (s2 : State) (ev2 : list Event) :
  page_context w data cid s1 ctx s2 ev2 ->
  chats (db s2) = chats (db s1) /\ messages (db s2) = messages (db s1).
Proof. by destruct 1. Qed.

(** A property of states that the four elementary changes keep (the
    clock moving on, a chat row inserted under a free id, a cache row
    written for an existing chat, the closing writes of a turn on an
    existing chat) is kept by every request. *)
Lemma serve_keeps (I : State -> Prop) :
  (forall s n, I s -> (tick s <= n)%nat -> I (mkState (db s) n)) ->
  (forall s uid, I s -> chats (db s) !! uuid w (tick s) = None ->
                 I (with_new_chat w uid s)) ->
  (forall s cid url content, I s -> is_Some (chats (db s) !! cid) ->
                             I (with_scrape cid url content s)) ->
  (forall s cid prompt response, I s -> is_Some (chats (db s) !! cid) ->
                                 I (with_turn w cid prompt response s)) ->
  forall r s, I s -> I (final (serve w r s)).
Proof.
  intros Hlater Hnew Hscrape Hturn r s Hs.
  assert (Hres : forall uid data cid s1 ev1,
             resolves w uid data s cid s1 ev1 ->
             I s1 /\ is_Some (chats (db s1) !! cid)).
  { intros uid data cid s1 ev1 Hr. split.
    - destruct Hr; auto.
    - destruct (resolves_owner _ _ _ _ _ _ Hr) as (row & -> & _). by eexists. }
  assert (Hctx : forall data cid s1 ctx s2 ev2,
             page_context w data cid s1 ctx s2 ev2 ->
             I s1 -> is_Some (chats (db s1) !! cid) ->
             I s2 /\ is_Some (chats (db s2) !! cid)).
  { intros data cid s1 ctx s2 ev2 Hc H1 Hsome.
    destruct (page_context_chats _ _ _ _ _ _ Hc) as [-> _].
    split; [|done]. destruct Hc; auto. }
  destruct r as [user_id data|user_id|user_id chat_id|user_id]; cbn [serve].
  - destruct (turn_total w user_id data s)
      as [ | | | | cid s1 ev1 error _ Hr _ _
         | cid s1 ev1 ctx s2 ev2 error _ Hr Hc _
         | cid s1 ev1 ctx s2 ev2 response _ Hr Hc _ ]; cbn [final]; auto.
    + apply Hres in Hr as [H1 _]. auto.
    + apply Hres in Hr as [H1 Hsome].
      destruct (Hctx _ _ _ _ _ _ Hc H1 Hsome) as [H2 _]. auto.
    + apply Hres in Hr as [H1 Hsome].
      destruct (Hctx _ _ _ _ _ _ Hc H1 Hsome) as [H2 Hsome2]. auto.
  - done.
  - turn_cases; done.
  - turn_cases.
    + apply (Hlater s (S (S (tick s)))); [done|lia].
    + exact (Hnew s user_id Hs ltac:(done)).
Qed.

Lemma serve_all_keeps (I : State -> Prop) :
  (forall s n, I s -> (tick s <= n)%nat -> I (mkState (db s) n)) ->
  (forall s uid, I s -> chats (db s) !! uuid w (tick s) = None ->
                 I (with_new_chat w uid s)) ->
  (forall s cid url content, I s -> is_Some (chats (db s) !! cid) ->
                             I (with_scrape cid url content s)) ->
  (forall s cid prompt response, I s -> is_Some (chats (db s) !! cid) ->
                                 I (with_turn w cid prompt response s)) ->
  forall rs s, I s -> I (serve_all w rs s).
Proof.
  intros Hlater Hnew Hscrape Hturn rs.
  induction rs as [|r rs IH]; intros s Hs; [done|].
  cbn [serve_all]. apply IH. by apply serve_keeps.
Qed.

Lemma reachable_keeps (I : State -> Prop) :
  I init_state ->
  (forall s n, I s -> (tick s <= n)%nat -> I (mkState (db s) n)) ->
  (forall s uid, I s -> chats (db s) !! uuid w (tick s) = None ->
                 I (with_new_chat w uid s)) ->
  (forall s cid url content, I s -> is_Some (chats (db s) !! cid) ->
                             I (with_scrape cid url content s)) ->
  (forall s cid prompt response, I s -> is_Some (chats (db s) !! cid) ->
                                 I (with_turn w cid prompt response s)) ->
  forall s tr, reachable w s tr -> I s.
Proof.
  intros Hinit Hlater Hnew Hscrape Hturn s tr.
  induction 1 as [|s tr r _ IH]; [done|]. by apply serve_keeps.
Qed.

End Frame.

(** X2. In every state the service can reach, the content of every
    message row and the URL and content of every cache row hold no null
    character and neither start nor end with white space. *)
Theorem stored_text_clean (w : World) (s : State) (tr : list Event) :
  reachable w s tr ->
  Forall (fun m => clean (msg_content m)) (messages (db s))
  /\ (forall cid row, scrape_cache cid s = Some row ->
        clean (last_url row) /\ clean (last_scraped_content row)).
Proof.
  unfold scrape_cache.
  apply (reachable_keeps w (fun s =>
    Forall (fun m => clean (msg_content m)) (messages (db s))
    /\ (forall cid row, chat_metadata (db s) !! cid = Some row ->
          clean (last_url row) /\ clean (last_scraped_content row)))).
  - split; [constructor|]. intros cid row. cbn. by rewrite lookup_empty.
  - done.
  - done.
  - intros s0 cid url content [Hm Hc] _. split; [done|].
    intros cid' row. cbn. rewrite lookup_insert. case_decide; [|apply Hc].
    intros [= <-]. cbn. split; apply sanitize_db_input_clean.
  - intros s0 cid prompt response [Hm Hc] _. split; [|done].
    cbn. apply Forall_app. split; [done|].
    repeat constructor; cbn; apply sanitize_db_input_clean.
Qed.

Lemma stored_text_clean_witness :
  let o := send_message demo_world 7 (ask_about "http://a" "hi") init_state in
  reachable demo_world (final o) ([] ++ events o)
  /\ Forall (fun m => clean (msg_content m)) (messages (db (final o))).
Proof.
  assert (Hreach : reachable demo_world
                     (final (send_message demo_world 7 (ask_about "http://a" "hi")
                               init_state))
                     ([] ++ events (send_message demo_world 7
                                      (ask_about "http://a" "hi") init_state)))
    by exact (reach_serve demo_world init_state []
                (PostMessage 7 (ask_about "http://a" "hi")) (reach_init demo_world)).
  split; [exact Hreach|].
  exact (proj1 (stored_text_clean demo_world _ _ Hreach)).
Defined.

(** X3. Whatever requests are served, a chat row that exists stays: the
    chat is still there afterwards, with the same owner and the same
    creation time. *)
Theorem chats_never_transferred (w : World) (rs : list Request) (s : State)
    (cid : string) (row : ChatRow) :
  chats (db s) !! cid = Some row ->
  exists row',
    chats (db (serve_all w rs s)) !! cid = Some row'
    /\ chat_user_id row' = chat_user_id row
    /\ chat_created_at row' = chat_created_at row.
Proof.
  intros Hrow.
  apply (serve_all_keeps w (fun s' => exists row',
    chats (db s') !! cid = Some row'
    /\ chat_user_id row' = chat_user_id row
    /\ chat_created_at row' = chat_created_at row)).
  - done.
  - intros s0 uid (row' & Hrow' & ?) Hfree. exists row'. split; [|done].
    cbn. rewrite lookup_insert_ne; [done|]. congruence.
  - done.
  - intros s0 c prompt response (row' & Hrow' & Hu & Hc) _. cbn.
    rewrite lookup_alter. case_decide; [|by exists row'].
    subst c. rewrite Hrow'. by eexists.
  - by exists row.
Qed.

Lemma chats_never_transferred_witness :
  let s := final (new_chat demo_world 8 init_state) in
  chats (db s) !! "chat-0" = Some (mkChat 8 1 1)
  /\ exists row',
       chats (db (serve_all demo_world
                    [PostMessage 8 (ask_in "chat-0" "hi"); PostNew 7] s)) !! "chat-0"
       = Some row'
       /\ chat_user_id row' = 8 /\ chat_created_at row' = 1.
Proof.
  split; [reflexivity|].
  exact (chats_never_transferred demo_world
           [PostMessage 8 (ask_in "chat-0" "hi"); PostNew 7]
           (final (new_chat demo_world 8 init_state)) "chat-0" (mkChat 8 1 1) eq_refl).
Defined.

(** X4. The message table only grows at its end: after any requests the
    table from before is a prefix of the table, so no message row is
    ever changed or removed. *)
Theorem messages_append_only (w : World) (rs : list Request) (s : State) :
  messages (db s) `prefix_of` messages (db (serve_all w rs s)).
Proof.
  apply (serve_all_keeps w (fun s' => messages (db s) `prefix_of` messages (db s')));
    try done.
  intros s0 cid prompt response Hpre _. cbn. by apply prefix_app_r.
Qed.

(** X5. In every state the service can reach, the i-th message row
    (from 0) has id i+1: ids are distinct and follow insertion order. *)
Theorem message_ids_count_up (w : World) (s : State) (tr : list Event) :
  reachable w s tr ->
  forall (i : nat) (m : MessageRow), messages (db s) !! i = Some m -> msg_id m = S i.
Proof.
  apply (reachable_keeps w (fun s =>
    forall (i : nat) (m : MessageRow), messages (db s) !! i = Some m -> msg_id m = S i));
    try done.
  intros s0 cid prompt response Hids _ i m. cbn.
  intros [Hold | [Hge Hnew]]%lookup_app_Some; [by apply Hids|].
  destruct (i - length (messages (db s0)))%nat as [|[|k]] eqn:Hk;
    cbn in Hnew; simplify_eq; cbn; lia.
Qed.

Lemma message_ids_count_up_witness :
  let o := send_message demo_world 7 (ask "hi") init_state in
  reachable demo_world (final o) ([] ++ events o)
  /\ messages (db (final o)) !! 1%nat = Some (mkMessage 2 "chat-0" "assistant" "hi" 4)
  /\ msg_id (mkMessage 2 "chat-0" "assistant" "hi" 4) = 2%nat.
Proof.
  assert (Hreach : reachable demo_world
                     (final (send_message demo_world 7 (ask "hi") init_state))
                     ([] ++ events (send_message demo_world 7 (ask "hi") init_state)))
    by exact (reach_serve demo_world init_state [] (PostMessage 7 (ask "hi"))
                (reach_init demo_world)).
  split_and!; [exact Hreach | reflexivity |].
  exact (message_ids_count_up demo_world _ _ Hreach 1%nat _ eq_refl).
Defined.

Lemma well_paired_app (l l' : list MessageRow) :
  well_paired l = true -> well_paired (l ++ l') = well_paired l'.
Proof.
  assert (forall n l, (length l <= n)%nat ->
            well_paired l = true -> well_paired (l ++ l') = well_paired l') as Hn.
  { clear l. induction n as [|n IH]; intros [|u [|a rest]] Hlen Hp;
      cbn in *; try done; try lia.
    apply andb_true_iff in Hp as [Hhead Hrest]. rewrite Hhead. cbn.
    apply IH; [lia|done]. }
  by apply (Hn (length l)).
Qed.

(** X6. In every state the service can reach, the message table read
    two rows at a time consists of a user row followed by an assistant
    row of the same chat; in particular its length is even. *)
Theorem messages_come_in_pairs (w : World) (s : State) (tr : list Event) :
  reachable w s tr ->
  well_paired (messages (db s)) = true
  /\ Nat.Even (length (messages (db s))).
Proof.
  apply (reachable_keeps w (fun s =>
    well_paired (messages (db s)) = true /\ Nat.Even (length (messages (db s)))));
    try done.
  - split; [done|]. by exists 0%nat.
  - intros s0 cid prompt response [Hp [k Hk]] _. cbn. split.
    + rewrite well_paired_app by done. cbn.
      by rewrite !bool_decide_eq_true_2.
    + exists (S k). rewrite length_app. cbn. lia.
Qed.

Lemma messages_come_in_pairs_witness :
  let o := send_message demo_world 7 (ask "hi") init_state in
  reachable demo_world (final o) ([] ++ events o)
  /\ well_paired (messages (db (final o))) = true.
Proof.
  assert (Hreach : reachable demo_world
                     (final (send_message demo_world 7 (ask "hi") init_state))
                     ([] ++ events (send_message demo_world 7 (ask "hi") init_state)))
    by exact (reach_serve demo_world init_state [] (PostMessage 7 (ask "hi"))
                (reach_init demo_world)).
  split; [exact Hreach|].
  exact (proj1 (messages_come_in_pairs demo_world _ _ Hreach)).
Defined.

(** X7. In every state the service can reach, every message row and
    every cache row belongs to a chat that exists, although the schema's
    foreign keys are not what enforces it. *)
Theorem rows_belong_to_chats (w : World) (s : State) (tr : list Event) :
  reachable w s tr ->
  Forall (fun m => is_Some (chats (db s) !! msg_chat_id m)) (messages (db s))
  /\ (forall cid, is_Some (scrape_cache cid s) -> is_Some (chats (db s) !! cid)).
Proof.
  unfold scrape_cache.
  apply (reachable_keeps w (fun s =>
    Forall (fun m => is_Some (chats (db s) !! msg_chat_id m)) (messages (db s))
    /\ (forall cid, is_Some (chat_metadata (db s) !! cid) ->
                    is_Some (chats (db s) !! cid)))).
  - split; [constructor|]. intros cid. cbn. rewrite lookup_empty. by intros [? ?].
  - done.
  - intros s0 uid [Hm Hc] _. cbn. split.
    + eapply Forall_impl; [exact Hm|]. cbn. intros m Hsome.
      rewrite lookup_insert_is_Some. destruct (decide (uuid w (tick s0) = msg_chat_id m)); auto.
    + intros cid Hsome. apply Hc in Hsome.
      rewrite lookup_insert_is_Some. destruct (decide (uuid w (tick s0) = cid)); auto.
  - intros s0 cid url content [Hm Hc] Hcid. cbn. split; [done|].
    intros cid'. rewrite lookup_insert_is_Some.
    intros [<- | [_ Hsome]]; auto.
  - intros s0 cid prompt response [Hm Hc] Hcid. cbn. split.
    + apply Forall_app. split.
      * eapply Forall_impl; [exact Hm|]. cbn. intros m Hsome.
        rewrite lookup_alter_is_Some. done.
      * repeat constructor; cbn; by rewrite lookup_alter_is_Some.
    + intros cid' Hsome. rewrite lookup_alter_is_Some. auto.
Qed.

(** An id without chat row has no message row and no cache row. *)
Lemma free_id_has_no_rows (w : World) (s : State) (tr : list Event) :
  reachable w s tr ->
  forall cid, chats (db s) !! cid = None ->
    filter (fun m => msg_chat_id m = cid) (messages (db s)) = []
    /\ chat_metadata (db s) !! cid = None.
Proof.
  apply (reachable_keeps w (fun s => forall cid, chats (db s) !! cid = None ->
    filter (fun m => msg_chat_id m = cid) (messages (db s)) = []
    /\ chat_metadata (db s) !! cid = None)).
  - done.
  - done.
  - intros s0 uid Hs _ cid. cbn. intros [Hnone _]%lookup_insert_None. auto.
  - intros s0 c url content Hs Hc cid Hnone. cbn in *.
    destruct (Hs cid Hnone) as [Hm Hmeta]. split; [done|].
    rewrite lookup_insert_ne; [done|]. intros ->. rewrite Hnone in Hc. by destruct Hc.
  - intros s0 c prompt response Hs Hc cid. cbn.
    rewrite lookup_alter_None. intros Hnone.
    destruct (Hs cid Hnone) as [Hm Hmeta]. split; [|done].
    assert (c <> cid) by (intros ->; rewrite Hnone in Hc; by destruct Hc).
    by rewrite filter_app, Hm, !filter_cons_False, filter_nil by done.
Qed.

Lemma rows_belong_to_chats_witness :
  let o := send_message demo_world 7 (ask_about "http://a" "hi") init_state in
  reachable demo_world (final o) ([] ++ events o)
  /\ Forall (fun m => is_Some (chats (db (final o)) !! msg_chat_id m))
            (messages (db (final o))).
Proof.
  assert (Hreach : reachable demo_world
                     (final (send_message demo_world 7 (ask_about "http://a" "hi")
                               init_state))
                     ([] ++ events (send_message demo_world 7
                                      (ask_about "http://a" "hi") init_state)))
    by exact (reach_serve demo_world init_state []
                (PostMessage 7 (ask_about "http://a" "hi")) (reach_init demo_world)).
  split; [exact Hreach|].
  exact (proj1 (rows_belong_to_chats demo_world _ _ Hreach)).
Defined.

(* ===================================================================== *)
(** * What a single turn touches *)
(* ===================================================================== *)

Section Footprint.

Variable w : World.

Lemma resolves_frame (user_id : Z) (data : gmap string string) (s : State)
    (cid : string) (s1 : State) (ev1 : list Event) :
  resolves w user_id data s cid s1 ev1 ->
  messages (db s1) = messages (db s)
  /\ chat_metadata (db s1) = chat_metadata (db s)
  /\ (forall c, c <> cid -> chats (db s1) !! c = chats (db s) !! c)
  /\ Forall (fun e => e = EvCreateChat cid user_id) ev1.
Proof.
  destruct 1; cbn; split_and!; try done.
  - intros c Hc. by rewrite lookup_insert_ne.
  - by repeat constructor.
Qed.

Lemma page_context_frame (data : gmap string string) (cid : string) (s1 : State)
    (ctx : option string) (s2 : State) (ev2 : list Event) :
  page_context w data cid s1 ctx s2 ev2 ->
  (forall c, c <> cid -> chat_metadata (db s2) !! c = chat_metadata (db s1) !! c)
  /\ Forall (fun e => is_generate e = false
                      /\ (is_write e = true -> event_chat e = Some cid)) ev2
  /\ (request_url data = "" -> s2 = s1 /\ ev2 = [])
  /\ (length (List.filter is_scrape ev2) <= 1)%nat.
Proof.
  destruct 1; cbn; split_and!; try done; try lia.
  - intros c Hc. by rewrite lookup_insert_ne.
  - by repeat constructor.
Qed.

Lemma owned_by_turn (user_id : Z) (cid c prompt response : string) (s : State) :
  owned_by user_id cid s -> owned_by user_id cid (with_turn w c prompt response s).
Proof.
  intros (row & Hrow & Hu). unfold owned_by. cbn.
  rewrite lookup_alter. case_decide; [|by exists row].
  subst c. rewrite Hrow. by eexists.
Qed.

(** X8. Every store write a turn makes goes to the one chat the turn
    runs on, and that chat belongs to the caller: a turn never writes
    into a chat of another user. *)
Theorem turn_writes_only_own_chat (user_id : Z) (data : gmap string string)
    (s : State) (e : Event) :
  let o := send_message w user_id data s in
  In e (events o) ->
  is_write e = true ->
  event_chat e = Some (turn_chat_id w data s)
  /\ owned_by user_id (turn_chat_id w data s) (final o).
Proof.
  cbv zeta.
  destruct (turn_total w user_id data s)
    as [ | | | | cid s1 ev1 error _ Hr _ _
       | cid s1 ev1 ctx s2 ev2 error _ Hr Hc _
       | cid s1 ev1 ctx s2 ev2 response _ Hr Hc _ ];
    cbn [events final]; try done.
  all: rewrite (resolves_turn_chat_id _ _ _ _ _ _ _ Hr).
  all: pose proof (resolves_owner _ _ _ _ _ _ _ Hr) as Hown.
  all: apply resolves_frame in Hr as (_ & _ & _ & Hev1).
  all: rewrite Forall_forall in Hev1.
  - intros [Hin|Hin]%in_app_iff Hw.
    + apply list_elem_of_In, Hev1 in Hin as ->. done.
    + destruct Hin as [<-|[]]. done.
  - destruct (page_context_chats _ _ _ _ _ _ _ Hc) as [Hchats _].
    apply page_context_frame in Hc as (_ & Hev2 & _). rewrite Forall_forall in Hev2.
    assert (owned_by user_id cid (mkState (db s2) (S (tick s2)))) as Hown2.
    { unfold owned_by in *. cbn. by rewrite Hchats. }
    intros [Hin|[Hin|Hin]%in_app_iff]%in_app_iff Hw.
    + apply list_elem_of_In, Hev1 in Hin as ->. done.
    + apply list_elem_of_In, Hev2 in Hin as [_ Hin]. auto.
    + destruct Hin as [<-|[]]. done.
  - destruct (page_context_chats _ _ _ _ _ _ _ Hc) as [Hchats _].
    apply page_context_frame in Hc as (_ & Hev2 & _). rewrite Forall_forall in Hev2.
    assert (owned_by user_id cid (with_turn w cid (request_prompt data) response s2))
      as Hown2.
    { apply owned_by_turn. unfold owned_by in *. by rewrite Hchats. }
    intros [Hin|[Hin|Hin]%in_app_iff]%in_app_iff Hw.
    + apply list_elem_of_In, Hev1 in Hin as ->. done.
    + apply list_elem_of_In, Hev2 in Hin as [_ Hin]. auto.
    + cbn in Hin. destruct_or?; simplify_eq; done.
Qed.

Lemma filter_none {A} (f : A -> bool) (l : list A) :
  Forall (fun x => f x = false) l -> List.filter f l = [].
Proof.
  induction 1 as [|x l Hx _ IH]; [done|]. cbn. by rewrite Hx.
Qed.

Lemma resolves_calls (user_id : Z) (data : gmap string string) (s : State)
    (cid : string) (s1 : State) (ev1 : list Event) :
  resolves w user_id data s cid s1 ev1 ->
  List.filter is_generate ev1 = [] /\ List.filter is_scrape ev1 = [].
Proof. by destruct 1. Qed.

Lemma page_context_calls (data : gmap string string) (cid : string) (s1 : State)
    (ctx : option string) (s2 : State) (ev2 : list Event) :
  page_context w data cid s1 ctx s2 ev2 -> List.filter is_generate ev2 = [].
Proof. by destruct 1. Qed.

(** X9. A turn leaves every chat other than the one it runs on as it
    was: the chat row, the message listing and the scrape cache of any
    other chat are the same before and after. *)
Theorem turn_leaves_other_chats_alone (user_id : Z) (data : gmap string string)
    (s : State) (cid : string) :
  cid <> turn_chat_id w data s ->
  let o := send_message w user_id data s in
  chats (db (final o)) !! cid = chats (db s) !! cid
  /\ list_messages cid (final o) = list_messages cid s
  /\ scrape_cache cid (final o) = scrape_cache cid s.
Proof.
  intros Hother. cbv zeta. unfold list_messages, select_messages, scrape_cache.
  destruct (turn_total w user_id data s)
    as [ | | | | c s1 ev1 error _ Hr _ _
       | c s1 ev1 ctx s2 ev2 error _ Hr Hc _
       | c s1 ev1 ctx s2 ev2 response _ Hr Hc _ ];
    cbn [final db]; try done.
  all: rewrite (resolves_turn_chat_id _ _ _ _ _ _ _ Hr) in Hother.
  all: apply resolves_frame in Hr as (Hm1 & Hc1 & Hk1 & _).
  - by rewrite Hm1, Hc1, Hk1.
  - destruct (page_context_chats _ _ _ _ _ _ _ Hc) as [Hk2 Hm2].
    apply page_context_frame in Hc as (Hc2 & _).
    by rewrite Hk2, Hm2, Hc2, Hm1, Hc1, Hk1.
  - destruct (page_context_chats _ _ _ _ _ _ _ Hc) as [Hk2 Hm2].
    apply page_context_frame in Hc as (Hc2 & _).
    cbn. rewrite lookup_alter_ne by done.
    rewrite filter_app, !filter_cons_False, filter_nil, app_nil_r by (cbn; congruence).
    by rewrite Hk2, Hm2, Hc2, Hm1, Hc1, Hk1.
Qed.

(** X10. A turn without URL never calls the scraper and leaves the whole
    scrape cache as it was. *)
Theorem no_url_no_scrape (user_id : Z) (data : gmap string string) (s : State) :
  request_url data = "" ->
  let o := send_message w user_id data s in
  List.filter is_scrape (events o) = []
  /\ chat_metadata (db (final o)) = chat_metadata (db s).
Proof.
  intros Hurl. cbv zeta.
  destruct (turn_total w user_id data s)
    as [ | | | | c s1 ev1 error _ Hr Hu _
       | c s1 ev1 ctx s2 ev2 error _ Hr Hc _
       | c s1 ev1 ctx s2 ev2 response _ Hr Hc _ ];
    cbn [final events db]; try done.
  all: destruct (resolves_calls _ _ _ _ _ _ Hr) as [_ Hs1].
  all: apply resolves_frame in Hr as (_ & Hc1 & _).
  all: apply page_context_frame in Hc as (_ & _ & Hsame & _).
  all: destruct (Hsame Hurl) as [-> ->].
  all: rewrite List.filter_app, Hs1. all: done.
Qed.

(** X11. Whenever a turn calls the generator, it calls it once, with
    the trimmed prompt of the request and, as conversation history, the
    role and content of every message listed for the turn's chat before
    the turn, oldest first and without truncation. *)
Theorem generator_gets_prompt_and_listing (user_id : Z) (data : gmap string string)
    (s : State) (p : string) (c : option string) (h : list (string * string))
    (r : AiResult) :
  let o := send_message w user_id data s in
  In (EvGenerate p c h r) (events o) ->
  p = request_prompt data
  /\ h = map role_content (list_messages (turn_chat_id w data s) s)
  /\ List.filter is_generate (events o) = [EvGenerate p c h r].
Proof.
  cbv zeta.
  destruct (turn_total w user_id data s)
    as [ | | | | cid s1 ev1 error _ Hr Hu _
       | cid s1 ev1 ctx s2 ev2 error _ Hr Hc _
       | cid s1 ev1 ctx s2 ev2 response _ Hr Hc _ ];
    cbn [events]; try done.
  all: rewrite (resolves_turn_chat_id _ _ _ _ _ _ _ Hr).
  all: destruct (resolves_calls _ _ _ _ _ _ Hr) as [Hg1 _].
  all: apply resolves_frame in Hr as (_ & _ & _ & Hev1); rewrite Forall_forall in Hev1.
  - intros [Hin|Hin]%in_app_iff.
    + apply list_elem_of_In, Hev1 in Hin. done.
    + destruct Hin as [|[]]; done.
  - pose proof (page_context_calls _ _ _ _ _ _ Hc) as Hg2.
    apply page_context_frame in Hc as (_ & Hev2 & _); rewrite Forall_forall in Hev2.
    rewrite !List.filter_app, Hg1, Hg2. cbn.
    intros [Hin|[Hin|Hin]%in_app_iff]%in_app_iff.
    + apply list_elem_of_In, Hev1 in Hin. done.
    + apply list_elem_of_In, Hev2 in Hin as [Hin _]. done.
    + destruct Hin as [[= <- <- <- <-]|[]]. done.
  - pose proof (page_context_calls _ _ _ _ _ _ Hc) as Hg2.
    apply page_context_frame in Hc as (_ & Hev2 & _); rewrite Forall_forall in Hev2.
    rewrite !List.filter_app, Hg1, Hg2. cbn.
    intros [Hin|[Hin|Hin]%in_app_iff]%in_app_iff.
    + apply list_elem_of_In, Hev1 in Hin. done.
    + apply list_elem_of_In, Hev2 in Hin as [Hin _]. done.
    + cbn in Hin. destruct_or?; simplify_eq; done.
Qed.

(** X12. Only an answered turn touches the messages: when the reply is
    not the 200 answer, the message table is as before and every chat
    row that existed is unchanged, whatever else the turn did. *)
Theorem only_answered_turns_write_messages (user_id : Z) (data : gmap string string)
    (s : State) :
  let o := send_message w user_id data s in
  (forall response cid, reply o <> JsonMessage response cid) ->
  messages (db (final o)) = messages (db s)
  /\ (forall cid row, chats (db s) !! cid = Some row ->
                      chats (db (final o)) !! cid = Some row).
Proof.
  cbv zeta.
  destruct (turn_total w user_id data s)
    as [ | | | | cid s1 ev1 error _ Hr Hu _
       | cid s1 ev1 ctx s2 ev2 error _ Hr Hc _
       | cid s1 ev1 ctx s2 ev2 response _ Hr Hc _ ];
    cbn [reply final db]; try done.
  - intros _. destruct Hr; cbn; split; try done.
    intros cid row Hrow. rewrite lookup_insert_ne; [done|congruence].
  - intros _. destruct (page_context_chats _ _ _ _ _ _ _ Hc) as [-> ->].
    destruct Hr; cbn; split; try done.
    intros cid row Hrow. rewrite lookup_insert_ne; [done|congruence].
  - intros Hno. by destruct (Hno response cid).
Qed.

(** X13. A turn calls the scraper at most once and the generator at
    most once. *)
Theorem one_call_each (user_id : Z) (data : gmap string string) (s : State) :
  let o := send_message w user_id data s in
  (length (List.filter is_scrape (events o)) <= 1)%nat
  /\ (length (List.filter is_generate (events o)) <= 1)%nat.
Proof.
  cbv zeta.
  destruct (turn_total w user_id data s)
    as [ | | | | cid s1 ev1 error _ Hr Hu _
       | cid s1 ev1 ctx s2 ev2 error _ Hr Hc _
       | cid s1 ev1 ctx s2 ev2 response _ Hr Hc _ ];
    cbn [events]; try (cbn; lia).
  all: destruct (resolves_calls _ _ _ _ _ _ Hr) as [Hg1 Hs1].
  all: rewrite !List.filter_app, ?Hg1, ?Hs1; try (cbn; lia).
  all: rewrite (page_context_calls _ _ _ _ _ _ Hc).
  all: apply page_context_frame in Hc as (_ & _ & _ & Hone).
  all: rewrite !length_app; cbn; lia.
Qed.

End Footprint.

Lemma turn_writes_only_own_chat_witness :
  let s := final (new_chat demo_world 7 init_state) in
  let o := send_message demo_world 7 (ask_in "chat-0" "hi") s in
  In (EvAddMessage "chat-0" "user" "hi") (events o)
  /\ owned_by 7 "chat-0" (final o).
Proof.
  split; [vm_compute; tauto|].
  refine (proj2 (turn_writes_only_own_chat demo_world 7 (ask_in "chat-0" "hi")
                   (final (new_chat demo_world 7 init_state))
                   (EvAddMessage "chat-0" "user" "hi") _ eq_refl)).
  vm_compute; tauto.
Defined.

Lemma turn_leaves_other_chats_alone_witness :
  let s := final (new_chat demo_world 8 init_state) in
  let o := send_message demo_world 7 (ask "hi") s in
  "chat-0" <> turn_chat_id demo_world (ask "hi") s
  /\ chats (db (final o)) !! "chat-0" = chats (db s) !! "chat-0".
Proof.
  assert (Hne : "chat-0" <> turn_chat_id demo_world (ask "hi")
                               (final (new_chat demo_world 8 init_state)))
    by (vm_compute; discriminate).
  split; [exact Hne|].
  exact (proj1 (turn_leaves_other_chats_alone demo_world 7 (ask "hi")
                  (final (new_chat demo_world 8 init_state)) "chat-0" Hne)).
Defined.

Lemma no_url_no_scrape_witness :
  let o := send_message demo_world 7 (ask "hi") init_state in
  request_url (ask "hi") = ""
  /\ chat_metadata (db (final o)) = chat_metadata (db init_state).
Proof.
  split; [reflexivity|].
  exact (proj2 (no_url_no_scrape demo_world 7 (ask "hi") init_state eq_refl)).
Defined.

Lemma generator_gets_prompt_and_listing_witness :
  let s := final (send_message demo_world 7 (ask "hi") init_state) in
  let o := send_message demo_world 7 (ask_in "chat-0" " more ") s in
  In (EvGenerate "more" None [("user", "hi"); ("assistant", "hi")] (AiOk " hi "))
     (events o)
  /\ "more" = request_prompt (ask_in "chat-0" " more ").
Proof.
  assert (Hin : In (EvGenerate "more" None [("user", "hi"); ("assistant", "hi")]
                               (AiOk " hi "))
                   (events (send_message demo_world 7 (ask_in "chat-0" " more ")
                              (final (send_message demo_world 7 (ask "hi") init_state)))))
    by (vm_compute; tauto).
  split; [exact Hin|].
  exact (proj1 (generator_gets_prompt_and_listing demo_world 7 _ _ _ _ _ _ Hin)).
Defined.

Lemma only_answered_turns_write_messages_witness :
  let o := send_message mute_world 7 (ask "hi") init_state in
  (forall response cid, reply o <> JsonMessage response cid)
  /\ messages (db (final o)) = messages (db init_state).
Proof.
  assert (Hno : forall response cid,
             reply (send_message mute_world 7 (ask "hi") init_state)
             <> JsonMessage response cid)
    by (intros response cid; vm_compute; discriminate).
  split; [exact Hno|].
  exact (proj1 (only_answered_turns_write_messages mute_world 7 (ask "hi")
                  init_state Hno)).
Defined.

(* ===================================================================== *)
(** * The reading endpoints *)
(* ===================================================================== *)

Lemma map_fmap {A B} (f : A -> B) (l : list A) : map f l = f <$> l.
Proof. induction l as [|x l IH]; [done|]. cbn. by rewrite IH. Qed.

Lemma insert_by_perm {A} (key : A -> Z) (x : A) (l : list A) :
  insert_by key x l ≡ₚ x :: l.
Proof.
  induction l as [|y l IH]; [done|]. cbn.
  destruct (key x <=? key y); [done|]. rewrite IH. apply Permutation_swap.
Qed.

Lemma order_by_perm {A} (key : A -> Z) (l : list A) : order_by key l ≡ₚ l.
Proof.
  induction l as [|x l IH]; [done|]. unfold order_by in *. cbn.
  by rewrite insert_by_perm, IH.
Qed.

Lemma insert_by_ordered {A} (key : A -> Z) (x : A) (l : list A) :
  StronglySorted (fun a b => key a <= key b) l ->
  StronglySorted (fun a b => key a <= key b) (insert_by key x l).
Proof.
  induction 1 as [|y l Hl IH Hy]; cbn; [by repeat constructor|].
  destruct (Z.leb_spec (key x) (key y)).
  - constructor; [by constructor|]. constructor; [done|].
    eapply Forall_impl; [exact Hy|]. cbn. intros; lia.
  - constructor; [done|].
    rewrite insert_by_perm. constructor; [lia|done].
Qed.

Lemma order_by_ordered {A} (key : A -> Z) (l : list A) :
  StronglySorted (fun a b => key a <= key b) (order_by key l).
Proof.
  induction l as [|x l IH]; [constructor|].
  unfold order_by in *. cbn. by apply insert_by_ordered.
Qed.

Lemma get_chat_owned (user_id : Z) (chat_id : string) (s : State) :
  owned_by user_id chat_id s ->
  reply (get_chat user_id chat_id s) = JsonChat chat_id (list_messages chat_id s).
Proof.
  intros (row & Hrow & Hu). unfold get_chat, handle_errors, verify_chat_ownership,
    get_chat_messages, bind, value, get_db. cbn.
  rewrite Hrow. cbn. by rewrite bool_decide_eq_true_2.
Qed.

(** X14. [get_chat] only reads: the state is as before and no
    collaborator is called. The owner of the chat gets its messages in
    listing order; anybody else, and anybody asking for a chat that
    does not exist, gets the same 404. *)
Theorem get_chat_owner_only (user_id : Z) (chat_id : string) (s : State) :
  let o := get_chat user_id chat_id s in
  final o = s /\ events o = []
  /\ (owned_by user_id chat_id s ->
      reply o = JsonChat chat_id (list_messages chat_id s))
  /\ (~ owned_by user_id chat_id s ->
      reply o = JsonError 404 "Chat not found or access denied").
Proof.
  unfold owned_by. turn_cases; norm_hyps; split_and!; try done.
  - intros []. by eexists.
  - intros (row & Hrow & Hu). by simplify_eq.
  - intros (row & Hrow & Hu). by simplify_eq.
Qed.

Lemma get_chat_owner_only_witness :
  let s := final (send_message demo_world 7 (ask "hi") init_state) in
  owned_by 7 "chat-0" s
  /\ ~ owned_by 8 "chat-0" s
  /\ reply (get_chat 7 "chat-0" s)
     = JsonChat "chat-0" [mkMessage 1 "chat-0" "user" "hi" 3;
                          mkMessage 2 "chat-0" "assistant" "hi" 4]
  /\ reply (get_chat 8 "chat-0" s) = JsonError 404 "Chat not found or access denied".
Proof.
  set (s := final (send_message demo_world 7 (ask "hi") init_state)).
  assert (Hown : owned_by 7 "chat-0" s) by (eexists; split; reflexivity).
  assert (Hnot : ~ owned_by 8 "chat-0" s).
  { intros (row & Hrow & Hu). vm_compute in Hrow. injection Hrow as <-. discriminate. }
  split_and!; [exact Hown | exact Hnot | |].
  - exact (proj1 (proj2 (proj2 (get_chat_owner_only 7 "chat-0" s))) Hown).
  - exact (proj2 (proj2 (proj2 (get_chat_owner_only 8 "chat-0" s))) Hnot).
Defined.

(** X15. [get_history] only reads. Its listing holds exactly the chats
    of the caller, each once, the most recently updated first, each with
    the times of its row and the preview of its messages. *)
Theorem get_history_lists_own_chats (user_id : Z) (s : State) :
  let o := get_history user_id s in
  final o = s /\ events o = []
  /\ exists entries,
       reply o = JsonHistory entries
       /\ NoDup (map entry_chat_id entries)
       /\ (forall cid, cid ∈ map entry_chat_id entries <-> owned_by user_id cid s)
       /\ StronglySorted (fun a b => entry_updated_at b <= entry_updated_at a) entries
       /\ Forall (fun e => exists row,
                    chats (db s) !! entry_chat_id e = Some row
                    /\ entry_created_at e = chat_created_at row
                    /\ entry_updated_at e = chat_updated_at row
                    /\ entry_preview e = preview (list_messages (entry_chat_id e) s))
                 entries.
Proof.
  cbv zeta. split; [done|]. split; [done|].
  eexists. split; [reflexivity|]. unfold select_user_chats.
  set (mine := filter (fun r : string * ChatRow => chat_user_id r.2 = user_id)
                      (map_to_list (chats (db s)))).
  set (key := fun r : string * ChatRow => - chat_updated_at r.2).
  pose proof (order_by_perm key mine) as Hperm.
  assert (Hmine : forall cid row,
             (cid, row) ∈ order_by key mine
             <-> chats (db s) !! cid = Some row /\ chat_user_id row = user_id).
  { intros cid row. rewrite Hperm. unfold mine.
    rewrite list_elem_of_filter, elem_of_map_to_list. cbn. tauto. }
  rewrite map_map. cbn [entry_chat_id]. split_and!.
  - rewrite map_fmap, Hperm. unfold mine.
    apply (sublist_NoDup _ ((map_to_list (chats (db s))).*1));
      [apply NoDup_fst_map_to_list|].
    apply (fmap_sublist fst), sublist_filter.
  - intros cid. rewrite map_fmap, list_elem_of_fmap. unfold owned_by. split.
    + intros ([c row] & -> & Hin). apply Hmine in Hin. by exists row.
    + intros (row & Hrow & Hu). exists (cid, row). split; [done|]. by apply Hmine.
  - rewrite map_fmap.
    apply (StronglySorted_fmap _ (fun a b => key a <= key b)); [|apply order_by_ordered].
    intros [c1 r1] [c2 r2]. unfold key. cbn. lia.
  - apply Forall_forall. intros e.
    rewrite map_fmap, list_elem_of_fmap. intros ([cid row] & -> & Hin).
    apply Hmine in Hin as [Hrow _]. by exists row.
Qed.

Lemma new_chat_reply (w : World) (user_id : Z) (s : State) (cid : string) :
  reply (new_chat w user_id s) = JsonNewChat cid ->
  cid = uuid w (tick s)
  /\ chats (db s) !! cid = None
  /\ final (new_chat w user_id s) = with_new_chat w user_id s.
Proof. turn_cases; [done|]. by intros [= <-]. Qed.

(** X16. In a state the service can reach, a chat made by [new_chat]
    starts empty: it belongs to the caller, has no message and no cache
    row, and [get_chat] by the caller returns the empty listing. *)
Theorem new_chat_starts_empty (w : World) (s : State) (tr : list Event)
    (user_id : Z) (cid : string) :
  reachable w s tr ->
  reply (new_chat w user_id s) = JsonNewChat cid ->
  let s' := final (new_chat w user_id s) in
  owned_by user_id cid s'
  /\ list_messages cid s' = []
  /\ scrape_cache cid s' = None
  /\ reply (get_chat user_id cid s') = JsonChat cid [].
Proof.
  intros Hreach Hreply s'.
  destruct (new_chat_reply w user_id s cid Hreply) as (Hcid & Hfree & Hfinal).
  destruct (free_id_has_no_rows w s tr Hreach cid Hfree) as [Hnomsg Hnocache].
  unfold s'. rewrite Hfinal.
  assert (Hown : owned_by user_id cid (with_new_chat w user_id s)).
  { subst cid. eexists. split; [apply lookup_insert_eq|done]. }
  assert (Hlist : list_messages cid (with_new_chat w user_id s) = []).
  { unfold list_messages, select_messages. cbn. by rewrite Hnomsg. }
  split_and!; [done|done|done|].
  rewrite (get_chat_owned user_id cid _ Hown). by rewrite Hlist.
Qed.

Lemma new_chat_starts_empty_witness :
  reachable demo_world init_state []
  /\ reply (new_chat demo_world 7 init_state) = JsonNewChat "chat-0"
  /\ reply (get_chat 7 "chat-0" (final (new_chat demo_world 7 init_state)))
     = JsonChat "chat-0" [].
Proof.
  split_and!; [constructor | reflexivity |].
  exact (proj2 (proj2 (proj2 (new_chat_starts_empty demo_world init_state [] 7 "chat-0"
                                (reach_init demo_world) eq_refl)))).
Defined.

(* ===================================================================== *)
(** * Matching by derivatives is matching *)
(* ===================================================================== *)

Module ReFacts.

Import Re.

Lemma append_nil_inv (s1 s2 : string) : s1 +:+ s2 = "" -> s1 = "" /\ s2 = "".
Proof. destruct s1; [by intros <-|discriminate]. Qed.

Lemma append_assoc (s1 s2 s3 : string) : (s1 +:+ s2) +:+ s3 = s1 +:+ (s2 +:+ s3).
Proof.
  induction s1 as [|c s1 IH]; [done|].
  change (String c ((s1 +:+ s2) +:+ s3) = String c (s1 +:+ (s2 +:+ s3))).
  by rewrite IH.
Qed.

Lemma lang_nil_nullable (r : Regex) (s : string) :
  lang r s -> s = "" -> nullable r = true.
Proof.
  induction 1 as [ | | r1 r2 s1 s2 _ IH1 _ IH2 | r1 r2 s _ IH | r1 r2 s _ IH | | ];
    intros Hs; cbn; try done.
  - apply append_nil_inv in Hs as [-> ->]. by rewrite IH1, IH2.
  - by rewrite IH.
  - rewrite IH by done. by destruct (nullable r1).
Qed.

Lemma nullable_lang (r : Regex) : nullable r = true -> lang r "".
Proof.
  induction r as [ | | p | r1 IH1 r2 IH2 | r1 IH1 r2 IH2 | r IH ]; cbn; try done.
  - intros _. constructor.
  - intros [H1 H2]%andb_true_iff.
    change (lang (Cat r1 r2) ("" +:+ "")). constructor; auto.
  - intros [H|H]%orb_true_iff; [apply lang_or_l|apply lang_or_r]; auto.
  - intros _. constructor.
Qed.

Lemma deriv_lang (c : ascii) (r : Regex) :
  forall s, lang (deriv c r) s -> lang r (String c s).
Proof.
  induction r as [ | | p | r1 IH1 r2 IH2 | r1 IH1 r2 IH2 | r IH ]; cbn; intros s H.
  - inversion H.
  - inversion H.
  - destruct (p c) eqn:Hp; inversion H; subst. by constructor.
  - assert (forall t, lang (Cat (deriv c r1) r2) t -> lang (Cat r1 r2) (String c t)) as Hcat.
    { intros t Ht. inversion Ht as [ | | a b s1 s2 H1 H2 | | | | ]; subst.
      change (lang (Cat r1 r2) (String c s1 +:+ s2)). constructor; auto. }
    destruct (nullable r1) eqn:Hn; [|by apply Hcat].
    inversion H; subst; [by apply Hcat|].
    change (lang (Cat r1 r2) ("" +:+ String c s)).
    constructor; [by apply nullable_lang|auto].
  - inversion H; subst; [apply lang_or_l|apply lang_or_r]; auto.
  - inversion H as [ | | a b s1 s2 H1 H2 | | | | ]; subst.
    change (lang (Many r) (String c s1 +:+ s2)). constructor; auto.
Qed.

Lemma lang_deriv (r : Regex) (t : string) :
  lang r t -> forall c s, t = String c s -> lang (deriv c r) s.
Proof.
  induction 1 as [ | p c0 Hp | r1 r2 s1 s2 H1 IH1 H2 IH2 | r1 r2 s0 _ IH
                 | r1 r2 s0 _ IH | | r s1 s2 H1 IH1 H2 IH2 ];
    intros c s Ht; cbn; try discriminate.
  - injection Ht as -> <-. rewrite Hp. constructor.
  - destruct s1 as [|c1 s1'].
    + change (s2 = String c s) in Ht.
      rewrite (lang_nil_nullable _ _ H1 eq_refl). apply lang_or_r. by apply IH2.
    + change (String c1 (s1' +:+ s2) = String c s) in Ht. injection Ht as -> <-.
      assert (lang (Cat (deriv c r1) r2) (s1' +:+ s2)) by (constructor; auto).
      destruct (nullable r1); [by apply lang_or_l|done].
  - apply lang_or_l. by apply IH.
  - apply lang_or_r. by apply IH.
  - destruct s1 as [|c1 s1'].
    + change (s2 = String c s) in Ht. exact (IH2 c s Ht).
    + change (String c1 (s1' +:+ s2) = String c s) in Ht. injection Ht as -> <-.
      constructor; auto.
Qed.

Lemma matches_lang (r : Regex) (s : string) : matches r s = true <-> lang r s.
Proof.
  revert r. induction s as [|c s IH]; intros r; cbn.
  - split; [apply nullable_lang|]. intros H. by eapply lang_nil_nullable.
  - rewrite IH. split; [apply deriv_lang|]. intros H. by eapply lang_deriv.
Qed.

(** Taking patterns apart. *)
Lemma lang_cat_inv (r1 r2 : Regex) (s : string) :
  lang (Cat r1 r2) s -> exists s1 s2, s = s1 +:+ s2 /\ lang r1 s1 /\ lang r2 s2.
Proof. inversion 1; subst. eauto. Qed.

Lemma lang_ch_inv (p : ascii -> bool) (s : string) :
  lang (Ch p) s -> exists c, s = String c "" /\ p c = true.
Proof. inversion 1; subst. eauto. Qed.

Lemma lang_or_inv (r1 r2 : Regex) (s : string) :
  lang (Or r1 r2) s -> lang r1 s \/ lang r2 s.
Proof. inversion 1; subst; auto. Qed.

Lemma lang_empty_inv (s : string) : lang Empty s -> s = "".
Proof. by inversion 1. Qed.

Lemma lang_maybe_inv (r : Regex) (s : string) : lang (Maybe r) s -> lang r s \/ s = "".
Proof. intros [H|H%lang_empty_inv]%lang_or_inv; auto. Qed.

Lemma all_chars_app (q : ascii -> bool) (s1 s2 : string) :
  all_chars q (s1 +:+ s2) = all_chars q s1 && all_chars q s2.
Proof.
  induction s1 as [|c s1 IH]; [done|].
  change (q c && all_chars q (s1 +:+ s2) = q c && all_chars q s1 && all_chars q s2).
  rewrite IH. by destruct (q c).
Qed.

(** Every character of a matched string passed a test of the pattern. *)
Lemma lang_accepts (r : Regex) (s : string) :
  lang r s -> all_chars (accepts r) s = true.
Proof.
  assert (forall (p q : ascii -> bool) t,
            (forall c, p c = true -> q c = true) ->
            all_chars p t = true -> all_chars q t = true) as Hmono.
  { intros p q t Hpq. induction t as [|c t IH]; [done|]. cbn.
    intros [Hc Ht]%andb_true_iff. by rewrite (Hpq c Hc), IH. }
  induction 1 as [ | p c Hp | r1 r2 s1 s2 _ IH1 _ IH2 | r1 r2 s _ IH | r1 r2 s _ IH
                 | | r s1 s2 _ IH1 _ IH2 ]; try done.
  - cbn. by rewrite Hp.
  - rewrite all_chars_app. apply andb_true_iff. split.
    + eapply Hmono; [|exact IH1]. cbn. intros c ->. done.
    + eapply Hmono; [|exact IH2]. cbn. intros c ->. by destruct (accepts r1 c).
  - eapply Hmono; [|exact IH]. cbn. intros c ->. done.
  - eapply Hmono; [|exact IH]. cbn. intros c ->. by destruct (accepts r1 c).
  - rewrite all_chars_app. apply andb_true_iff. split; [exact IH1|exact IH2].
Qed.

Lemma all_ascii_complete (c : ascii) : c ∈ all_ascii.
Proof.
  unfold all_ascii. apply list_elem_of_In, in_map_iff.
  exists (nat_of_ascii c). split; [apply ascii_nat_embedding|].
  apply in_seq. pose proof (nat_ascii_bounded c). lia.
Qed.

Lemma within_spec (q : ascii -> bool) (r : Regex) :
  within q r = true -> forall c, accepts r c = true -> q c = true.
Proof.
  unfold within. rewrite forallb_forall. intros H c Hc.
  specialize (H c ltac:(apply list_elem_of_In, all_ascii_complete)).
  by rewrite Hc in H.
Qed.

Lemma lang_within (q : ascii -> bool) (r : Regex) (s : string) :
  within q r = true -> lang r s -> all_chars q s = true.
Proof.
  intros Hq Hs. apply lang_accepts in Hs.
  induction s as [|c s IH]; [done|]. cbn in *.
  apply andb_true_iff in Hs as [Hc Hs].
  by rewrite (within_spec q r Hq c Hc), IH.
Qed.

Lemma chomp_spec (s s' : string) : chomp s = Some s' -> s = s' +:+ String "010" "".
Proof.
  revert s'. induction s as [|c s IH]; intros s'; [done|]. cbn.
  destruct s as [|d s0].
  - destruct (Ascii.eqb_spec c "010"); [|done]. by intros [= <-]; subst.
  - destruct (chomp (String d s0)) as [t|] eqn:Ht; [|done].
    cbn. intros [= <-]. rewrite (IH t eq_refl). done.
Qed.

(** What [match_to_end] accepts: a string of the pattern, possibly
    followed by one line feed. *)
Lemma match_to_end_lang (r : Regex) (s : string) :
  match_to_end r s = true ->
  exists body tail, s = body +:+ tail /\ lang r body
                    /\ (tail = "" \/ tail = String "010" "").
Proof.
  unfold match_to_end. intros [H|H]%orb_true_iff.
  - exists s, "". rewrite append_empty_r. split_and!; [done| |by left].
    by apply matches_lang.
  - destruct (chomp s) as [s'|] eqn:Hs; [|done].
    exists s', (String "010" ""). split_and!; [by apply chomp_spec| |by right].
    by apply matches_lang.
Qed.

End ReFacts.

Example url_accepts_plain : Scraper._is_valid_url "http://example.com" = true.
Proof. vm_compute. reflexivity. Qed.
Example url_accepts_path : Scraper._is_valid_url "https://Example.COM/a/b?x=1" = true.
Proof. vm_compute. reflexivity. Qed.
Example url_accepts_localhost : Scraper._is_valid_url "http://localhost:5000/" = true.
Proof. vm_compute. reflexivity. Qed.
Example url_accepts_ip : Scraper._is_valid_url "http://999.1.1.1" = true.
Proof. vm_compute. reflexivity. Qed.
Example url_rejects_ftp : Scraper._is_valid_url "ftp://example.com" = false.
Proof. vm_compute. reflexivity. Qed.
Example url_rejects_bare_host : Scraper._is_valid_url "http://example" = false.
Proof. vm_compute. reflexivity. Qed.
Example url_rejects_space : Scraper._is_valid_url "http://example.com/a b" = false.
Proof. vm_compute. reflexivity. Qed.
Example url_rejects_empty : Scraper._is_valid_url "" = false.
Proof. vm_compute. reflexivity. Qed.

(* ===================================================================== *)
(** * The request to the model *)
(* ===================================================================== *)

(** X17. The message list sent to the model starts with the system
    prompt, continues with the conversation history unchanged and ends
    with one user message that ends with the prompt; that message is the
    bare prompt when the page content is absent or empty, and an absent
    or empty page content, like an absent or empty history, gives the
    same list. *)
Theorem request_messages_shape (self : Helper.OpenAIHelper) (p : string)
    (c : option string) (h : option (list (string * string))) :
  exists user_message,
    Helper.build_messages self p c h
    = ("system", Helper.system_prompt self) :: default [] h ++ [("user", user_message)]
    /\ (exists pre, user_message = pre +:+ p)
    /\ (c = None \/ c = Some "" -> user_message = p)
    /\ Helper.build_messages self p (Some "") h = Helper.build_messages self p None h
    /\ Helper.build_messages self p c (Some []) = Helper.build_messages self p c None.
Proof.
  unfold Helper.build_messages.
  destruct c as [[|a page]|]; cbn [truthy].
  - exists p. split_and!; [by destruct h as [[|m h]|] | by exists "" | done..].
  - eexists. split_and!; [by destruct h as [[|m h]|] | | by intros [|] | done..].
    exists ("Website Content:" +:+ Helper.nl +:+ Helper.nl +:+ String a page
            +:+ Helper.nl +:+ Helper.nl +:+ "User Request: ").
    by rewrite !ReFacts.append_assoc.
  - exists p. split_and!; [by destruct h as [[|m h]|] | by exists "" | done..].
Qed.

(* ===================================================================== *)
(** * URLs the scraper accepts *)
(* ===================================================================== *)

Lemma lower_app (s1 s2 : string) : lower (s1 +:+ s2) = lower s1 +:+ lower s2.
Proof.
  induction s1 as [|c s1 IH]; [done|].
  change (String (Re.to_lower c) (lower (s1 +:+ s2))
          = String (Re.to_lower c) (lower s1 +:+ lower s2)).
  by rewrite IH.
Qed.

Lemma plain_char (a c : ascii) :
  forallb (fun c => implb (Re.ignore_case (Re.is_char a) c)
                          (Ascii.eqb (Re.to_lower c) a)) all_ascii = true ->
  Re.ignore_case (Re.is_char a) c = true -> Re.to_lower c = a.
Proof.
  rewrite forallb_forall. intros H Hc.
  specialize (H c ltac:(apply list_elem_of_In, ReFacts.all_ascii_complete)).
  rewrite Hc in H. cbn in H. by apply Ascii.eqb_eq.
Qed.

Lemma lang_text_lower (t s : string) :
  plain_text t = true -> Re.lang (Re.Text Re.ignore_case t) s -> lower s = t.
Proof.
  revert s. induction t as [|a t IH]; intros s Ht Hs; cbn in *.
  - by apply ReFacts.lang_empty_inv in Hs as ->.
  - apply andb_true_iff in Ht as [Ha Ht].
    apply ReFacts.lang_cat_inv in Hs as (s1 & s2 & -> & H1 & H2).
    apply ReFacts.lang_ch_inv in H1 as (c & -> & Hc).
    change (String (Re.to_lower c) (lower s2) = String a t).
    by rewrite (plain_char a c Ha Hc), (IH s2 Ht H2).
Qed.

Lemma valid_url_lang (url : string) :
  Scraper._is_valid_url url = true ->
  exists body tail, url = body +:+ tail /\ Re.lang Scraper.url_pattern body
                    /\ (tail = "" \/ tail = String "010" "").
Proof.
  unfold Scraper._is_valid_url. destruct (truthy url); [|done].
  apply ReFacts.match_to_end_lang.
Qed.

(** X18. A URL [_is_valid_url] accepts begins with "http://" or
    "https://", in any mix of upper and lower case (for text of code
    points below 256, as everywhere here). *)
Theorem valid_url_has_http_scheme (url : string) :
  Scraper._is_valid_url url = true ->
  exists scheme rest,
    url = scheme +:+ rest
    /\ (lower scheme = "http://" \/ lower scheme = "https://").
Proof.
  intros (body & tail & -> & Hbody & _)%valid_url_lang.
  cbv delta [Scraper.url_pattern] beta zeta in Hbody.
  apply ReFacts.lang_cat_inv in Hbody as (s1 & r1 & -> & H1 & Hbody).
  apply ReFacts.lang_cat_inv in Hbody as (s2 & r2 & -> & H2 & Hbody).
  apply ReFacts.lang_cat_inv in Hbody as (s3 & r3 & -> & H3 & _).
  apply lang_text_lower in H1; [|by vm_compute].
  apply lang_text_lower in H3; [|by vm_compute].
  exists (s1 +:+ s2 +:+ s3), (r3 +:+ tail). split.
  - by rewrite !ReFacts.append_assoc.
  - rewrite !lower_app, H1, H3.
    apply ReFacts.lang_maybe_inv in H2 as [H2| ->]; [right|by left].
    apply ReFacts.lang_ch_inv in H2 as (c & -> & Hc).
    cbn [lower]. by rewrite (plain_char "s" c ltac:(by vm_compute) Hc).
Qed.

Lemma valid_url_has_http_scheme_witness :
  Scraper._is_valid_url "HTTPS://Example.com/a" = true
  /\ exists scheme rest,
       "HTTPS://Example.com/a" = scheme +:+ rest
       /\ (lower scheme = "http://" \/ lower scheme = "https://").
Proof.
  assert (H : Scraper._is_valid_url "HTTPS://Example.com/a" = true)
    by (vm_compute; reflexivity).
  split; [exact H|]. exact (valid_url_has_http_scheme _ H).
Defined.

(** X19. A URL [_is_valid_url] accepts holds no white space, except
    that it may end with a single line feed. *)
Theorem valid_url_has_no_space (url : string) :
  Scraper._is_valid_url url = true ->
  exists body tail,
    url = body +:+ tail
    /\ all_chars (fun c => negb (isspace c)) body = true
    /\ (tail = "" \/ tail = String "010" "").
Proof.
  intros (body & tail & -> & Hbody & Htail)%valid_url_lang.
  exists body, tail. split_and!; [done| |done].
  eapply ReFacts.lang_within; [|exact Hbody]. by vm_compute.
Qed.

Lemma valid_url_has_no_space_witness :
  Scraper._is_valid_url "http://localhost:5000/x" = true
  /\ exists body tail,
       "http://localhost:5000/x" = body +:+ tail
       /\ all_chars (fun c => negb (isspace c)) body = true
       /\ (tail = "" \/ tail = String "010" "").
Proof.
  assert (H : Scraper._is_valid_url "http://localhost:5000/x" = true)
    by (vm_compute; reflexivity).
  split; [exact H|]. exact (valid_url_has_no_space _ H).
Defined.

Lemma or_else_nonempty (x : option string) (d : string) :
  d <> "" -> Scraper.or_else x d <> "".
Proof.
  intros Hd. unfold Scraper.or_else. destruct x as [s|]; [|done].
  destruct (truthy s) eqn:Hs; [|done]. by apply truthy_true.
Qed.

Lemma invalid_url_not_crawled (arun : string -> Scraper.CrawlOutcome)
    (url : string) :
  Scraper._is_valid_url url = false ->
  Scraper.scrape_url arun url = ScrapeFail "Invalid URL format".
Proof. unfold Scraper.scrape_url. by intros ->. Qed.

(** X20. [scrape_url] refuses a URL that is not valid with "Invalid URL
    format" whatever the crawler would do, and every failure it reports
    carries a non-empty error text, also when the crawler failed without
    a message. *)
Theorem scrape_failure_has_message (arun : string -> Scraper.CrawlOutcome)
    (url : string) :
  (Scraper._is_valid_url url = false ->
   Scraper.scrape_url arun url = ScrapeFail "Invalid URL format")
  /\ (forall error, Scraper.scrape_url arun url = ScrapeFail error -> error <> "").
Proof.
  unfold Scraper.scrape_url. split.
  - by intros ->.
  - intros error. destruct (Scraper._is_valid_url url); cbn [negb].
    + destruct (arun url) as [result|e].
      * destruct (Scraper.success result); [done|].
        intros [= <-]. by apply or_else_nonempty.
      * by intros [= <-].
    + by intros [= <-].
Qed.

Lemma scrape_failure_has_message_witness :
  Scraper._is_valid_url "example.com" = false
  /\ Scraper.scrape_url (fun _ => Scraper.CrawlRaised "unused") "example.com"
     = ScrapeFail "Invalid URL format".
Proof.
  split; [vm_compute; reflexivity|].
  apply (proj1 (scrape_failure_has_message (fun _ => Scraper.CrawlRaised "unused")
                  "example.com")).
  vm_compute; reflexivity.
Defined.

(** X21. With the scraper of [scraper.py] behind the turn: a turn whose
    trimmed URL is not a valid URL never gets to the model and writes
    neither message nor cache row; unless it is rejected before the
    scrape, its reply is the 400 "Failed to scrape website: Invalid URL
    format". *)
Theorem invalid_url_turn_rejected (w : World)
    (arun : nat -> string -> Scraper.CrawlOutcome)
    (user_id : Z) (data : gmap string string) (s : State) :
  (forall t url, fetch w t url = Scraper.scrape_sync (arun t) url) ->
  request_url data <> "" ->
  Scraper._is_valid_url (request_url data) = false ->
  let o := send_message w user_id data s in
  page_contexts (events o) = []
  /\ messages (db (final o)) = messages (db s)
  /\ chat_metadata (db (final o)) = chat_metadata (db s)
  /\ In (reply o)
        [JsonError 400 "Failed to scrape website: Invalid URL format";
         JsonError 400 "No data provided";
         JsonError 400 "Prompt is required";
         JsonError 404 "Chat not found or access denied";
         JsonError 500 "Internal server error"].
Proof.
  intros Hfetch Hurl Hinvalid. cbv zeta.
  assert (Hfail : forall t, fetch w t (request_url data) = ScrapeFail "Invalid URL format").
  { intros t. rewrite Hfetch. unfold Scraper.scrape_sync.
    by apply invalid_url_not_crawled. }
  destruct (turn_total w user_id data s)
    as [ | | | | cid s1 ev1 error _ Hr _ Herr
       | cid s1 ev1 ctx s2 ev2 error _ Hr Hc _
       | cid s1 ev1 ctx s2 ev2 response _ Hr Hc _ ];
    cbn [reply final events db]; try (split_and!; [done..|cbn; tauto]).
  - rewrite Hfail in Herr. injection Herr as <-.
    destruct Hr; cbn; split_and!; try done; by left.
  - destruct Hc as [content title _ Hok| | | ]; try done.
    by rewrite Hfail in Hok.
  - destruct Hc as [content title _ Hok| | | ]; try done.
    by rewrite Hfail in Hok.
Qed.

Lemma invalid_url_turn_rejected_witness :
  let w := mkWorld (clock demo_world) (uuid demo_world)
             (fun _ url => Scraper.scrape_sync (fun _ => Scraper.CrawlRaised "down") url)
             (generate demo_world) in
  let o := send_message w 7 (ask_about "example.com" "hi") init_state in
  request_url (ask_about "example.com" "hi") <> ""
  /\ Scraper._is_valid_url (request_url (ask_about "example.com" "hi")) = false
  /\ page_contexts (events o) = [].
Proof.
  split_and!; [vm_compute; discriminate | vm_compute; reflexivity |].
  refine (proj1 (invalid_url_turn_rejected
                   (mkWorld (clock demo_world) (uuid demo_world)
                      (fun _ url => Scraper.scrape_sync
                                      (fun _ => Scraper.CrawlRaised "down") url)
                      (generate demo_world))
                   (fun _ _ => Scraper.CrawlRaised "down")
                   7 (ask_about "example.com" "hi") init_state _ _ _)).
  - reflexivity.
  - vm_compute; discriminate.
  - vm_compute; reflexivity.
Defined.

(* ===================================================================== *)
(** * E-mail addresses [validate_email] accepts *)
(* ===================================================================== *)

Lemma count_char_app (a : ascii) (s1 s2 : string) :
  count_char a (s1 +:+ s2) = (count_char a s1 + count_char a s2)%nat.
Proof.
  induction s1 as [|c s1 IH]; [done|].
  change (((if Ascii.eqb a c then 1 else 0) + count_char a (s1 +:+ s2))%nat
          = ((if Ascii.eqb a c then 1 else 0) + count_char a s1 + count_char a s2)%nat).
  rewrite IH. lia.
Qed.

Lemma count_char_none (a : ascii) (s : string) :
  all_chars (fun c => negb (Ascii.eqb a c)) s = true -> count_char a s = 0%nat.
Proof.
  induction s as [|c s IH]; [done|]. cbn.
  intros [Hc Hs]%andb_true_iff. rewrite (IH Hs).
  by destruct (Ascii.eqb a c).
Qed.

Lemma lang_some1_nonempty (p : ascii -> bool) (s : string) :
  Re.lang (Re.Some1 (Re.Ch p)) s -> s <> "".
Proof.
  intros (s1 & s2 & -> & H1 & _)%ReFacts.lang_cat_inv.
  by apply ReFacts.lang_ch_inv in H1 as (c & -> & _).
Qed.

Lemma lang_at_least_2 (p : ascii -> bool) (s : string) :
  Re.lang (Re.AtLeast 2 (Re.Ch p)) s -> (2 <= len s)%nat.
Proof.
  intros (s1 & s2 & -> & H1 & _)%ReFacts.lang_cat_inv.
  cbn [Re.Times] in H1.
  apply ReFacts.lang_cat_inv in H1 as (a & r & -> & Ha & H1).
  apply ReFacts.lang_cat_inv in H1 as (b & r' & -> & Hb & _).
  apply ReFacts.lang_ch_inv in Ha as (ca & -> & _).
  apply ReFacts.lang_ch_inv in Hb as (cb & -> & _).
  rewrite !len_app. cbn. lia.
Qed.

Lemma valid_email_lang (email : string) :
  Auth.validate_email email = true ->
  exists local host tld tail,
    email = local +:+ "@" +:+ host +:+ "." +:+ tld +:+ tail
    /\ local <> "" /\ host <> "" /\ (2 <= len tld)%nat
    /\ all_chars is_letter tld = true
    /\ all_chars email_char (local +:+ "@" +:+ host +:+ "." +:+ tld) = true
    /\ all_chars (fun c => negb (Ascii.eqb "@" c)) local = true
    /\ all_chars (fun c => negb (Ascii.eqb "@" c)) host = true
    /\ (tail = "" \/ tail = String "010" "").
Proof.
  intros (body & tail & -> & Hbody & Htail)%ReFacts.match_to_end_lang.
  assert (Hchars : all_chars email_char body = true)
    by (eapply ReFacts.lang_within; [|exact Hbody]; by vm_compute).
  cbv delta [Auth.email_pattern] beta zeta in Hbody.
  apply ReFacts.lang_cat_inv in Hbody as (local & r1 & -> & Hlocal & Hbody).
  apply ReFacts.lang_cat_inv in Hbody as (at_ & r2 & -> & Hat & Hbody).
  apply ReFacts.lang_cat_inv in Hbody as (host & r3 & -> & Hhost & Hbody).
  apply ReFacts.lang_cat_inv in Hbody as (dot & tld & -> & Hdot & Htld).
  apply ReFacts.lang_ch_inv in Hat as (a & -> & Ha). apply Ascii.eqb_eq in Ha as <-.
  apply ReFacts.lang_ch_inv in Hdot as (d & -> & Hd). apply Ascii.eqb_eq in Hd as <-.
  exists local, host, tld, tail. split_and!; try done.
  - by rewrite !ReFacts.append_assoc.
  - by eapply lang_some1_nonempty.
  - by eapply lang_some1_nonempty.
  - by eapply lang_at_least_2.
  - eapply ReFacts.lang_within; [|exact Htld]. by vm_compute.
  - eapply ReFacts.lang_within; [|exact Hlocal]. by vm_compute.
  - eapply ReFacts.lang_within; [|exact Hhost]. by vm_compute.
Qed.

(** X22. An address [validate_email] accepts has exactly one "@", a
    non-empty part before it, and after it a non-empty part, a dot and
    at least two letters; it is made of letters, digits and [._%+-@]
    only, except that it may end with a single line feed. *)
Theorem valid_email_shape (email : string) :
  Auth.validate_email email = true ->
  exists local host tld tail,
    email = local +:+ "@" +:+ host +:+ "." +:+ tld +:+ tail
    /\ local <> "" /\ host <> "" /\ (2 <= len tld)%nat
    /\ all_chars is_letter tld = true
    /\ all_chars email_char (local +:+ "@" +:+ host +:+ "." +:+ tld) = true
    /\ count_char "@" email = 1%nat
    /\ (tail = "" \/ tail = String "010" "").
Proof.
  intros (local & host & tld & tail & -> & Hl & Hh & Ht & Hletters & Hchars
          & Hlocal & Hhost & Htail)%valid_email_lang.
  exists local, host, tld, tail. split_and!; try done.
  rewrite !count_char_app, (count_char_none _ _ Hlocal), (count_char_none _ _ Hhost).
  rewrite (count_char_none "@" tld).
  - destruct Htail as [-> | ->]; done.
  - clear -Hletters. induction tld as [|c t IH]; [done|]. cbn [all_chars] in *.
    apply andb_true_iff in Hletters as [Hc Ht]. rewrite (IH Ht), andb_true_r.
    destruct (Ascii.eqb_spec "@" c) as [<-|]; [by vm_compute in Hc|done].
Qed.

Lemma valid_email_shape_witness :
  Auth.validate_email "a.b@example.org" = true
  /\ count_char "@" "a.b@example.org" = 1%nat.
Proof.
  assert (H : Auth.validate_email "a.b@example.org" = true) by (vm_compute; reflexivity).
  split; [exact H|].
  destruct (valid_email_shape _ H) as (? & ? & ? & ? & _ & _ & _ & _ & _ & _ & Hc & _).
  exact Hc.
Defined.

(* ===================================================================== *)
(** * Registration and login *)
(* ===================================================================== *)

Section Accounts.

Import Users Auth.

Lemma last_char_snoc (s : string) (c : ascii) :
  last_char (s +:+ String c "") = Some c.
Proof.
  induction s as [|d s IH]; [done|].
  change (last_char (String d (s +:+ String c "")) = Some c).
  cbn [last_char]. destruct (s +:+ String c "") eqn:E; [|done].
  by destruct s.
Qed.

Lemma all_chars_first (q : ascii -> bool) (s : string) (c : ascii) :
  all_chars q s = true -> first_char s = Some c -> q c = true.
Proof. destruct s; [done|]. cbn. intros [H _]%andb_true_iff [= <-]. done. Qed.

Lemma all_chars_impl (p q : ascii -> bool) (s : string) :
  (forall c, p c = true -> q c = true) -> all_chars p s = true -> all_chars q s = true.
Proof.
  intros Hpq. induction s as [|c s IH]; [done|]. cbn.
  intros [Hc Hs]%andb_true_iff. by rewrite (Hpq c Hc), IH.
Qed.

Lemma email_char_plain (c : ascii) :
  email_char c = true -> is_nul c = false /\ isspace c = false.
Proof.
  assert (forallb (fun c => implb (email_char c) (negb (is_nul c) && negb (isspace c)))
                  all_ascii = true) as H by by vm_compute.
  rewrite forallb_forall in H.
  specialize (H c ltac:(apply list_elem_of_In, ReFacts.all_ascii_complete)).
  intros Hc. rewrite Hc in H. cbn in H.
  apply andb_true_iff in H as [H1 H2]. split; by apply negb_true_iff.
Qed.

(** A valid address that does not end with white space is stored as it
    is. *)
Lemma valid_email_clean (email : string) :
  validate_email email = true ->
  (forall c, last_char email = Some c -> isspace c = false) ->
  clean email.
Proof.
  intros (body & tail & -> & Hbody & Htail)%ReFacts.match_to_end_lang Hlast.
  destruct Htail as [-> | ->].
  - rewrite append_empty_r in *.
    assert (all_chars email_char body = true) as Hchars
      by (eapply ReFacts.lang_within; [|exact Hbody]; by vm_compute).
    split.
    + eapply all_chars_impl; [|exact Hchars].
      intros c [-> _]%email_char_plain. done.
    + intros c Hc. by eapply (all_chars_first _ _ _ Hchars), email_char_plain in Hc as [_ ?].
    + done.
  - specialize (Hlast "010"%char (last_char_snoc _ _)). done.
Qed.

Lemma find_email_app (email : string) (users : list UserRow) (row : UserRow) :
  get_user_by_email email users = None ->
  u_email row = email ->
  get_user_by_email email (users ++ [row]) = Some row.
Proof.
  unfold get_user_by_email. intros Hnone Hrow.
  induction users as [|r users IH]; cbn in *.
  - by rewrite bool_decide_eq_true_2.
  - destruct (bool_decide (u_email r = email)); [done|]. by apply IH.
Qed.

Lemma find_email_none (email : string) (users : list UserRow) :
  get_user_by_email email users = None -> email ∉ map u_email users.
Proof.
  unfold get_user_by_email. induction users as [|r users IH]; cbn.
  - intros _. apply not_elem_of_nil.
  - case_bool_decide as Hr; [done|]. intros Hnone.
    apply not_elem_of_cons. split; [congruence|by apply IH].
Qed.

Lemma find_email_some (email : string) (users : list UserRow) (row : UserRow) :
  get_user_by_email email users = Some row -> row ∈ users /\ u_email row = email.
Proof.
  unfold get_user_by_email. induction users as [|r users IH]; cbn; [done|].
  case_bool_decide as Hr.
  - intros [= <-]. split; [left|done].
  - intros [? ?]%IH. split; [by right|done].
Qed.

(** What one registration does to the table. *)
Lemma register_step (hash_password : string -> option string) (now : Z)
    (data : gmap string string) (users : list UserRow) :
  let email := strip (default "" (data !! "email")) in
  let username := strip (default "" (data !! "username")) in
  let password := default "" (data !! "password") in
  let r := register hash_password now data users in
  (fst r <> Registered /\ snd r = users
   /\ (fst r = AuthError 500 "Internal server error" ->
       get_user_by_email email users = None /\ hash_password password = None))
  \/ (fst r = Registered
      /\ data <> ∅ /\ email <> "" /\ password <> ""
      /\ validate_email email = true
      /\ (8 <= len password)%nat
      /\ get_user_by_email email users = None
      /\ exists h, hash_password password = Some h
           /\ snd r = users ++ [mkUser (Z.of_nat (S (length users))) email
                                       (sanitize_db_input username) h now]).
Proof.
  cbv zeta. unfold register.
  case_bool_decide as Hdata; [left; by split_and!|].
  destruct (truthy (strip (default "" (data !! "email")))) eqn:Hemail;
    [|left; by split_and!].
  destruct (truthy (strip (default "" (data !! "username")))) eqn:Huser;
    [|left; by split_and!].
  destruct (truthy (default "" (data !! "password"))) eqn:Hpw;
    [|left; by split_and!].
  cbn [negb orb].
  destruct (validate_email (strip (default "" (data !! "email")))) eqn:Hvalid;
    [|left; by split_and!].
  cbn [negb]. unfold validate_password.
  destruct (Nat.ltb_spec (len (default "" (data !! "password"))) 8) as [Hshort|Hlong];
    [left; by split_and!|].
  cbn [negb].
  destruct (get_user_by_email (strip (default "" (data !! "email"))) users) eqn:Hfind.
  { left. by split_and!. }
  destruct (hash_password (default "" (data !! "password"))) as [h|] eqn:Hhash.
  2:{ left. by split_and!. }
  assert (sanitize_db_input (strip (default "" (data !! "email")))
          = strip (default "" (data !! "email"))) as Hclean.
  { apply clean_sanitize_id, valid_email_clean; [done|]. apply rstrip_last. }
  unfold create_user. rewrite Hclean, Hfind. cbn [fst snd].
  right. split_and!; try done; try by apply truthy_true.
  by exists h.
Qed.

(** X23. For a request body of string fields, a registration either
    changes nothing or appends exactly one row: the next id, the trimmed
    e-mail address exactly as it was checked, the sanitized user name
    and the fresh hash. It succeeds only for a valid, so far unknown
    address and a password of at least 8 characters. The INSERT of
    [create_user] does not run into the UNIQUE constraint, because the
    address it sanitizes is the one that was looked up: once the
    fields are read, the 500 reply comes from the hashing alone. *)
Theorem register_outcomes (hash_password : string -> option string) (now : Z)
    (data : gmap string string) (users : list UserRow) :
  let email := strip (default "" (data !! "email")) in
  let username := strip (default "" (data !! "username")) in
  let password := default "" (data !! "password") in
  let r := register hash_password now data users in
  (fst r = Registered ->
     validate_email email = true /\ (8 <= len password)%nat
     /\ get_user_by_email email users = None
     /\ exists h, hash_password password = Some h
          /\ snd r = users ++ [mkUser (Z.of_nat (S (length users))) email
                                      (sanitize_db_input username) h now])
  /\ (fst r <> Registered -> snd r = users)
  /\ (fst r = AuthError 500 "Internal server error" -> hash_password password = None).
Proof.
  cbv zeta.
  destruct (register_step hash_password now data users)
    as [(Hno & Hsame & H500) | (Hyes & _ & _ & _ & Hv & Hlen & Hfree & Hrow)].
  - split_and!; [done|done|]. intros H. by apply H500.
  - split_and!; [by intros _|done|]. rewrite Hyes. discriminate.
Qed.

(** X24. Starting from the empty table, after any registrations no two
    users share an e-mail address, the i-th user (from 0) has id i+1,
    and every stored address is one [validate_email] accepts. *)
Theorem registered_emails_unique
    (calls : list ((string -> option string) * Z * gmap string string)) :
  let users := register_run calls [] in
  NoDup (map u_email users)
  /\ (forall (i : nat) (r : UserRow), users !! i = Some r -> u_id r = Z.of_nat (S i))
  /\ Forall (fun r => validate_email (u_email r) = true) users.
Proof.
  cbv zeta.
  assert (forall users,
    NoDup (map u_email users)
    /\ (forall (i : nat) (r : UserRow), users !! i = Some r -> u_id r = Z.of_nat (S i))
    /\ Forall (fun r => validate_email (u_email r) = true) users ->
    NoDup (map u_email (register_run calls users))
    /\ (forall (i : nat) (r : UserRow),
          register_run calls users !! i = Some r -> u_id r = Z.of_nat (S i))
    /\ Forall (fun r => validate_email (u_email r) = true) (register_run calls users))
    as Hgen.
  { induction calls as [|[[hash_password now] data] calls IH]; intros users Hinv; [done|].
    cbn [register_run]. apply IH. destruct Hinv as (Hdup & Hids & Hvalid).
    destruct (register_step hash_password now data users)
      as [(_ & -> & _) | (_ & _ & _ & _ & Hv & _ & Hfree & h & _ & ->)]; [done|].
    split_and!.
    - rewrite map_app. cbn. apply NoDup_app. split_and!; [done| |apply NoDup_singleton].
      intros e He ->%list_elem_of_singleton. by apply find_email_none in Hfree.
    - intros i r [Hold|[Hge Hnew]]%lookup_app_Some; [by apply Hids|].
      destruct (i - length users)%nat as [|k] eqn:Hk; [|done].
      cbn in Hnew. injection Hnew as <-. cbn. f_equal. lia.
    - apply Forall_app. split; [done|]. by repeat constructor. }
  apply Hgen. split_and!; [constructor| |constructor].
  intros i r. by rewrite lookup_nil.
Qed.

(** X25. [login] answers with a token only if the table has a row for
    the trimmed address and [checkpw] accepts the password against that
    row's hash; the token is the one signed for that row's id, and the
    reply carries that row's id, address and user name. *)
Theorem login_needs_password (env : LoginEnv) (data : gmap string string)
    (users : list UserRow) (token : string) (id : Z) (email username : string) :
  login env data users = LoggedIn token id email username ->
  exists user,
    user ∈ users
    /\ u_email user = strip (default "" (data !! "email"))
    /\ checkpw env (default "" (data !! "password")) (u_password_hash user) = Some true
    /\ generate_token env (u_id user) = Some token
    /\ id = u_id user /\ email = u_email user /\ username = u_username user.
Proof.
  unfold login. case_bool_decide; [done|].
  destruct (negb _ || negb _); [done|].
  destruct (get_user_by_email _ users) as [user|] eqn:Hfind; [|done].
  destruct (checkpw env _ _) as [[]|] eqn:Hcheck; [|done|done].
  destruct (generate_token env _) as [t|] eqn:Htoken; [|done].
  intros [= <- <- <- <-]. apply find_email_some in Hfind as [Hin Hemail].
  exists user. by split_and!.
Qed.

Lemma login_needs_password_witness :
  login demo_login_env demo_account demo_users
  = LoggedIn "header.payload.signature" 1 "ann@example.org" "ann"
  /\ exists user, user ∈ demo_users
       /\ checkpw demo_login_env "correct horse" (u_password_hash user) = Some true.
Proof.
  assert (H : login demo_login_env demo_account demo_users
              = LoggedIn "header.payload.signature" 1 "ann@example.org" "ann")
    by (vm_compute; reflexivity).
  split; [exact H|].
  destruct (login_needs_password _ _ _ _ _ _ _ H) as (user & Hin & _ & Hcheck & _).
  exists user. split; [exact Hin|exact Hcheck].
Defined.

(** X26. [login] does not tell which part failed: a request for an
    unknown address and a request for a known address with a password
    the hash rejects get the same reply, the 401 "Invalid credentials"
    once address and password are present. *)
Theorem login_hides_which_failed (env : LoginEnv) (data : gmap string string)
    (users_unknown users_known : list UserRow) (user : UserRow) :
  let email := strip (default "" (data !! "email")) in
  let password := default "" (data !! "password") in
  get_user_by_email email users_unknown = None ->
  get_user_by_email email users_known = Some user ->
  checkpw env password (u_password_hash user) = Some false ->
  login env data users_unknown = login env data users_known
  /\ (data <> ∅ -> email <> "" -> password <> "" ->
      login env data users_known = AuthError 401 "Invalid credentials").
Proof.
  cbv zeta. intros Hunknown Hknown Hcheck. unfold login.
  case_bool_decide as Hdata; [done|].
  rewrite Hunknown, Hknown, Hcheck.
  destruct (truthy (strip (default "" (data !! "email")))) eqn:He.
  - destruct (truthy (default "" (data !! "password"))) eqn:Hp; cbn; [done|].
    apply truthy_false in Hp. by split.
  - apply truthy_false in He. by split.
Qed.

Lemma login_hides_which_failed_witness :
  login demo_login_env demo_wrong_password []
  = login demo_login_env demo_wrong_password demo_users
  /\ login demo_login_env demo_wrong_password demo_users
     = AuthError 401 "Invalid credentials".
Proof.
  destruct (login_hides_which_failed demo_login_env demo_wrong_password [] demo_users
              (mkUser 1 "ann@example.org" "ann" "bcrypt:correct horse" 0))
    as [Hsame Hreply]; [vm_compute; reflexivity..|].
  split; [exact Hsame|].
  apply Hreply; vm_compute; discriminate.
Defined.

(** X27. After a successful registration, logging in with the same
    request body succeeds as the new user, provided bcrypt accepts the
    hashes it makes and the token can be signed. *)
Theorem register_then_login (hash_password : string -> option string) (now : Z)
    (env : LoginEnv) (data : gmap string string) (users : list UserRow)
    (h token : string) :
  fst (register hash_password now data users) = Registered ->
  hash_password (default "" (data !! "password")) = Some h ->
  checkpw env (default "" (data !! "password")) h = Some true ->
  generate_token env (Z.of_nat (S (length users))) = Some token ->
  login env data (snd (register hash_password now data users))
  = LoggedIn token (Z.of_nat (S (length users)))
             (strip (default "" (data !! "email")))
             (sanitize_db_input (strip (default "" (data !! "username")))).
Proof.
  intros Hreg Hh Hbcrypt Htoken.
  destruct (register_step hash_password now data users)
    as [(Hno & _) | (_ & Hdata & Hemail & Hpw & _ & _ & Hfree & h' & Hhash & ->)]; [done|].
  assert (h' = h) as -> by congruence.
  unfold login. rewrite bool_decide_eq_false_2 by done.
  apply truthy_true in Hemail, Hpw. rewrite Hemail, Hpw. cbn [negb orb].
  erewrite find_email_app; [|exact Hfree|reflexivity].
  cbn [u_password_hash u_id u_email u_username].
  by rewrite Hbcrypt, Htoken.
Qed.

Lemma register_then_login_witness :
  fst (register demo_hash_password 0 demo_account []) = Registered
  /\ login demo_login_env demo_account (snd (register demo_hash_password 0 demo_account []))
     = LoggedIn "header.payload.signature" 1 "ann@example.org" "ann".
Proof.
  split; [vm_compute; reflexivity|].
  apply (register_then_login demo_hash_password 0 demo_login_env demo_account []
           "bcrypt:correct horse" "header.payload.signature");
    vm_compute; reflexivity.
Defined.

End Accounts.

(* ===================================================================== *)
(** * The decorator [require_auth] *)
(* ===================================================================== *)

Section Tokens.

Import Users Auth.

Lemma split_no_sep (sep : ascii) (s : string) :
  all_chars (fun c => negb (Ascii.eqb c sep)) s = true -> split sep s = [s].
Proof.
  induction s as [|c s IH]; [done|]. cbn [all_chars split].
  intros [Hc Hs]%andb_true_iff. apply negb_true_iff in Hc.
  by rewrite Hc, IH.
Qed.

Lemma split_app (sep : ascii) (word rest : string) :
  all_chars (fun c => negb (Ascii.eqb c sep)) word = true ->
  split sep (word +:+ String sep rest) = word :: split sep rest.
Proof.
  induction word as [|c word IH].
  - intros _. change (split sep (String sep rest) = "" :: split sep rest).
    cbn [split]. by rewrite Ascii.eqb_refl.
  - cbn [all_chars]. intros [Hc Hs]%andb_true_iff. apply negb_true_iff in Hc.
    change (split sep (String c (word +:+ String sep rest))
            = String c word :: split sep rest).
    cbn [split]. by rewrite Hc, IH.
Qed.

Lemma truthy_app_cons (s t : string) (c : ascii) : truthy (s +:+ String c t) = true.
Proof. by destruct s. Qed.

(** A header whose first two words are [scheme] and [token] is decided
    by [verify_token token]. *)
Lemma require_auth_second_word {A} (verify_token : string -> TokenOutcome) (f : Z -> A)
    (scheme token tail : string) :
  no_space scheme = true -> no_space token = true ->
  tail = "" \/ (exists junk, tail = String " " junk) ->
  require_auth verify_token f (Some (scheme +:+ String " " (token +:+ tail)))
  = match verify_token token with
    | TokenPayload (Some user_id) => Ran (f user_id)
    | TokenPayload None => Uncaught "KeyError: 'user_id'"
    | TokenExpired => Refused (AuthError 401 "Token has expired")
    | TokenInvalid => Refused (AuthError 401 "Invalid token")
    end.
Proof.
  intros Hscheme Htoken Htail. unfold require_auth.
  rewrite truthy_app_cons. cbn [negb]. rewrite split_app by exact Hscheme.
  destruct Htail as [-> | [junk ->]].
  - rewrite append_empty_r, split_no_sep by exact Htoken. done.
  - rewrite split_app by exact Htoken. done.
Qed.

(** X28. A decorated route runs only when the header has a second word
    (split at single spaces) that [verify_token] decodes to a payload
    with a [user_id], and it runs as that user; every refusal of the
    decorator is a 401; the one exception it lets through is the
    KeyError of a valid token without [user_id]. *)
Theorem require_auth_gate {A} (verify_token : string -> TokenOutcome) (f : Z -> A)
    (auth_header : option string) :
  (forall result, require_auth verify_token f auth_header = Ran result ->
     exists header scheme token rest user_id,
       auth_header = Some header
       /\ split " " header = scheme :: token :: rest
       /\ verify_token token = TokenPayload (Some user_id)
       /\ result = f user_id)
  /\ (forall reply, require_auth verify_token f auth_header = Refused reply ->
        exists error, reply = AuthError 401 error)
  /\ (forall exn, require_auth verify_token f auth_header = Uncaught exn ->
        exists header scheme token rest,
          auth_header = Some header
          /\ split " " header = scheme :: token :: rest
          /\ verify_token token = TokenPayload None).
Proof.
  unfold require_auth. destruct auth_header as [header|].
  2:{ split_and!; intros ? [= <-]. by eexists. }
  destruct (truthy header); cbn [negb].
  2:{ split_and!; intros ? [= <-]. by eexists. }
  destruct (split " " header) as [|scheme [|token rest]] eqn:Hsplit.
  1,2: split_and!; intros ? [= <-]; by eexists.
  destruct (verify_token token) as [[user_id|]| |] eqn:Hverify.
  - split_and!; intros ? [= <-]. by exists header, scheme, token, rest, user_id.
  - split_and!; intros ? [= <-]. by exists header, scheme, token, rest.
  - split_and!; intros ? [= <-]. by eexists.
  - split_and!; intros ? [= <-]. by eexists.
Qed.

(** X29. Only the second word of the Authorization header counts: with
    any first word, the empty one included, and with anything after a
    further space, the header is treated exactly like
    "Bearer <token>". *)
Theorem header_second_word_decides {A} (verify_token : string -> TokenOutcome)
    (f : Z -> A) (scheme token tail : string) :
  no_space scheme = true -> no_space token = true ->
  tail = "" \/ (exists junk, tail = " " +:+ junk) ->
  require_auth verify_token f (Some (scheme +:+ " " +:+ token +:+ tail))
  = require_auth verify_token f (Some ("Bearer " +:+ token)).
Proof.
  intros Hscheme Htoken Htail.
  change (scheme +:+ " " +:+ token +:+ tail)
    with (scheme +:+ String " " (token +:+ tail)).
  rewrite require_auth_second_word by done.
  rewrite <- (append_empty_r token) at 2.
  change ("Bearer " +:+ token +:+ "") with ("Bearer" +:+ String " " (token +:+ "")).
  rewrite require_auth_second_word; [done|done|done|by left].
Qed.

Lemma header_second_word_decides_witness :
  require_auth demo_verify_token (fun user_id => user_id)
    (Some " header.payload.signature and more")
  = require_auth demo_verify_token (fun user_id => user_id)
      (Some "Bearer header.payload.signature").
Proof.
  apply (header_second_word_decides demo_verify_token (fun user_id => user_id)
           "" "header.payload.signature" " and more").
  - vm_compute; reflexivity.
  - vm_compute; reflexivity.
  - right. exists "and more". reflexivity.
Defined.

(** X30. The token [login] hands out opens the decorated routes for the
    user who logged in: sent back as "Bearer <token>", it makes the
    route run with the id of the row that [login] found for the trimmed
    address, provided the token has no space and [verify_token] decodes
    it to the [user_id] of the payload it was signed for. *)
Theorem login_token_runs_route {A} (env : LoginEnv)
    (verify_token : string -> TokenOutcome) (f : Z -> A)
    (data : gmap string string) (users : list UserRow)
    (token : string) (id : Z) (email username : string) :
  login env data users = LoggedIn token id email username ->
  no_space token = true ->
  (forall payload, jwt_encode env payload = Some token ->
                   verify_token token = TokenPayload (Some (payload_user_id payload))) ->
  require_auth verify_token f (Some ("Bearer " +:+ token)) = Ran (f id)
  /\ exists user, user ∈ users /\ u_id user = id
                  /\ u_email user = strip (default "" (data !! "email")).
Proof.
  intros Hlogin Htoken Hdecode.
  unfold login in Hlogin. case_bool_decide; [done|].
  destruct (negb _ || negb _); [done|].
  destruct (get_user_by_email _ users) as [user|] eqn:Hfind; [|done].
  destruct (checkpw env _ _) as [[]|]; [|done|done].
  destruct (generate_token env _) as [t|] eqn:Hsigned; [|done].
  injection Hlogin as -> <- <- <-.
  split.
  - rewrite <- (append_empty_r token).
    change ("Bearer " +:+ token +:+ "") with ("Bearer" +:+ String " " (token +:+ "")).
    rewrite require_auth_second_word; [|done|done|by left].
    by rewrite (Hdecode _ Hsigned).
  - apply find_email_some in Hfind as [Hin Hemail]. by exists user.
Qed.

Lemma login_token_runs_route_witness :
  login demo_login_env demo_account demo_users
  = LoggedIn "header.payload.signature" 1 "ann@example.org" "ann"
  /\ require_auth demo_verify_token (fun user_id => user_id)
       (Some "Bearer header.payload.signature") = Ran 1.
Proof.
  split; [vm_compute; reflexivity|].
  refine (proj1 (login_token_runs_route demo_login_env demo_verify_token
                   (fun user_id => user_id) demo_account demo_users
                   "header.payload.signature" 1 "ann@example.org" "ann" _ _ _)).
  - vm_compute; reflexivity.
  - vm_compute; reflexivity.
  - intros payload. cbn. destruct (Z.eqb_spec (payload_user_id payload) 1) as [Hid|Hid].
    + intros _. rewrite Hid. reflexivity.
    + discriminate.
Defined.

End Tokens.

(* ===================================================================== *)
(** * The listing of a chat over any run of requests *)
(* ===================================================================== *)

Section Listing.

Variable w : World.
Hypothesis clock_increasing : strictly_increasing (clock w).

(** Only a turn gives the 200 answer of a turn. *)
Lemma answered_is_turn (cid : string) (r : Request) (s : State) :
  answered_on cid (serve w r s) = true ->
  exists user_id data response,
    r = PostMessage user_id data
    /\ reply (send_message w user_id data s) = JsonMessage response cid.
Proof.
  unfold answered_on.
  destruct r as [user_id data|user_id|user_id chat_id|user_id]; cbn [serve].
  - destruct (reply (send_message w user_id data s)) eqn:E; try done.
    intros ->%bool_decide_eq_true. by eexists _, _, _.
  - done.
  - turn_cases; done.
  - turn_cases; done.
Qed.

(** A request that is not answered as a turn leaves the message table
    alone. *)
Lemma unanswered_keeps_messages (r : Request) (s : State) :
  (forall response cid, reply (serve w r s) <> JsonMessage response cid) ->
  messages (db (final (serve w r s))) = messages (db s).
Proof.
  destruct r as [user_id data|user_id|user_id chat_id|user_id]; cbn [serve].
  - destruct (turn_total w user_id data s)
      as [ | | | | cid s1 ev1 error _ Hr _ _
         | cid s1 ev1 ctx s2 ev2 error _ Hr Hc _
         | cid s1 ev1 ctx s2 ev2 response _ Hr Hc _ ];
      cbn [reply final db]; try done.
    + intros _. by apply resolves_frame in Hr as [-> _].
    + intros _. destruct (page_context_chats _ _ _ _ _ _ _ Hc) as [_ ->].
      by apply resolves_frame in Hr as [-> _].
    + intros Hno. by destruct (Hno response cid).
  - done.
  - turn_cases; done.
  - turn_cases; done.
Qed.

(** One request, seen from one chat: the listing grows by the pair of a
    turn answered on that chat, whose [updated_at] then moves forward,
    and stays as it is otherwise. *)
Lemma serve_listing (cid : string) (r : Request) (s : State) :
  consistent w s ->
  let o := serve w r s in
  exists rows,
    list_messages cid (final o) = list_messages cid s ++ rows
    /\ map role_content rows = chat_pair cid r o
    /\ (answered_on cid o = true -> updated_at_advanced cid s (final o)).
Proof.
  intros Hs. cbv zeta.
  pose proof (serve_consistent w clock_increasing r s Hs) as Hfin.
  destruct (answered_on cid (serve w r s)) eqn:Ha.
  - destruct (answered_is_turn cid r s Ha) as (user_id & data & response & -> & Hreply).
    cbn [serve] in *.
    destruct (answered_listing w clock_increasing user_id data s response cid Hs Hreply)
      as (m1 & m2 & Hlist & Hm1 & Hm2 & Hadv).
    exists [m1; m2]. split_and!; [done| |done].
    unfold chat_pair. rewrite Ha. unfold turn_pair, response_text. cbn [snd map].
    by rewrite Hm1, Hm2, Hreply.
  - exists []. rewrite app_nil_r. split_and!; [| |done].
    + rewrite (listing_in_insertion_order w cid _ Hfin).
      rewrite (listing_in_insertion_order w cid _ Hs).
      destruct (reply (serve w r s)) as [st e|response c|l|c l|c] eqn:Hreply.
      2:{ destruct r as [user_id data|user_id|user_id chat_id|user_id].
          - cbn [serve] in *.
            destruct (answered_inv w user_id data s response c Hreply)
              as (s2 & -> & Hmsgs & _).
            unfold answered_on in Ha. rewrite Hreply in Ha.
            apply bool_decide_eq_false in Ha.
            unfold with_turn. cbn [db messages]. rewrite Hmsgs, filter_app.
            rewrite filter_cons_False by done. rewrite filter_cons_False by done.
            by rewrite filter_nil, app_nil_r.
          - cbn [serve] in Hreply. done.
          - cbn [serve] in Hreply. revert Hreply. turn_cases; done.
          - cbn [serve] in Hreply. revert Hreply. turn_cases; done. }
      all: rewrite unanswered_keeps_messages; [done|].
      all: intros response' c'; rewrite Hreply; discriminate.
    + unfold chat_pair. destruct r; [by rewrite Ha|done..].
Qed.

(** Any run of requests, seen from one chat. *)
Lemma listing_run (cid : string) (rs : list Request) :
  forall s0 : State,
    consistent w s0 ->
    let outs := serve_run w rs s0 in
    consistent w (state_after s0 outs)
    /\ (exists rows,
          list_messages cid (state_after s0 outs) = list_messages cid s0 ++ rows
          /\ map role_content rows = concat (zip_with (chat_pair cid) rs outs))
    /\ (forall i o s s',
          outs !! i = Some o ->
          answered_on cid o = true ->
          states_of s0 outs !! i = Some s ->
          states_of s0 outs !! S i = Some s' ->
          updated_at_advanced cid s s').
Proof.
  induction rs as [|r rs IH]; intros s0 Hs0; cbn [serve_run] in *.
  - cbn. split_and!; [done| |].
    + exists []. by rewrite app_nil_r.
    + intros i o s s' Hi. by destruct i.
  - cbn zeta in *.
    set (o := serve w r s0) in *.
    destruct (serve_listing cid r s0 Hs0) as (rows1 & Hlist & Hrc1 & Hadv).
    pose proof (serve_consistent w clock_increasing r s0 Hs0) as Hfin.
    fold o in Hlist, Hrc1, Hadv, Hfin.
    destruct (IH (final o) Hfin) as (Hcons & (rows & Hrows & Hrc) & Hsteps).
    cbn [state_after]. split_and!; [done| |].
    + exists (rows1 ++ rows). split.
      * rewrite Hrows, Hlist. by rewrite <- !app_assoc.
      * cbn [zip_with concat]. by rewrite map_app, Hrc, Hrc1.
    + intros [|i] o' s s' Ho Ha Hi Hi'; cbn in Ho, Hi, Hi'.
      * simplify_eq. by apply Hadv.
      * by eapply Hsteps.
Qed.

(** The contents a run is to leave in a chat: two per answered turn on
    it, user first. *)
Lemma chat_pairs_shape (cid : string) (rs : list Request) :
  forall s0 : State,
    let outs := serve_run w rs s0 in
    let pairs := concat (zip_with (chat_pair cid) rs outs) in
    length pairs = (2 * answered_count cid outs)%nat
    /\ map fst pairs
       = concat (replicate (answered_count cid outs) ["user"; "assistant"]).
Proof.
  induction rs as [|r rs IH]; intros s0; [done|].
  cbn [serve_run zip_with concat]. cbv zeta.
  destruct (IH (final (serve w r s0))) as [Hlen Hroles]. cbn zeta in Hlen, Hroles.
  unfold answered_count in *.
  rewrite length_app, map_app, Hlen, Hroles.
  destruct (answered_on cid (serve w r s0)) eqn:Ha.
  - rewrite filter_cons_True by done.
    destruct (answered_is_turn cid r s0 Ha) as (user_id & data & response & -> & _).
    unfold chat_pair. rewrite Ha. cbn. split; [lia|done].
  - rewrite filter_cons_False by (by rewrite Ha).
    assert (chat_pair cid r (serve w r s0) = []) as ->
      by (unfold chat_pair; destruct r; [by rewrite Ha|done..]).
    done.
Qed.

End Listing.

(** C4, as the code has it. Take any chat that has no messages in a
    state the service reached, and a clock whose readings strictly
    increase. After any further requests, by any users and on any chats,
    of which N are turns answered on that chat, its listing has exactly
    2N rows in strictly increasing timestamp order, roles alternating
    user, assistant from user on; each answered turn contributes, in the
    order of the turns, its user row and then its assistant row, whose
    contents are the trimmed prompt and the generator's output as
    [sanitize_db_input] stores them; and each answered turn moves the
    chat's [updated_at] forward. *)
Theorem successful_turns_listing (w : World) (cid : string)
    (rs : list Request) (s0 : State) (tr : list Event) :
  strictly_increasing (clock w) ->
  reachable w s0 tr ->
  list_messages cid s0 = [] ->
  let outs := serve_run w rs s0 in
  let n := answered_count cid outs in
  let listing := list_messages cid (state_after s0 outs) in
  length listing = (2 * n)%nat
  /\ StronglySorted earlier listing
  /\ map msg_role listing = concat (replicate n ["user"; "assistant"])
  /\ map role_content listing = concat (zip_with (chat_pair cid) rs outs)
  /\ (forall i o s s',
        outs !! i = Some o ->
        answered_on cid o = true ->
        states_of s0 outs !! i = Some s ->
        states_of s0 outs !! S i = Some s' ->
        updated_at_advanced cid s s').
Proof.
  intros Hclock Hreach Hempty outs n listing.
  pose proof (reachable_consistent w Hclock s0 tr Hreach) as Hs0.
  destruct (listing_run w Hclock cid rs s0 Hs0)
    as (Hcons & (rows & Hrows & Hrc) & Hsteps).
  fold outs in Hcons, Hrows, Hrc, Hsteps. fold listing in Hrows.
  rewrite Hempty in Hrows. cbn [app] in Hrows.
  destruct (chat_pairs_shape w cid rs s0) as [Hlen Hroles].
  cbn zeta in Hlen, Hroles. fold outs in Hlen, Hroles. fold n in Hlen, Hroles.
  assert (Hlisting : map role_content listing
                     = concat (zip_with (chat_pair cid) rs outs)) by by rewrite Hrows.
  split_and!; [| | |done|done].
  - by rewrite <- Hlen, <- Hlisting, length_map.
  - unfold listing.
    rewrite (listing_in_insertion_order w cid _ Hcons).
    apply sorted_filter. by destruct Hcons.
  - rewrite <- Hroles, <- Hlisting. rewrite map_map. done.
Qed.

Lemma successful_turns_listing_witness :
  let rs := [PostMessage 7 (ask "hi"); PostMessage 8 (ask "elsewhere");
             PostMessage 7 (ask_in "chat-0" "more"); GetHistory 7;
             PostMessage 8 (ask_in "chat-0" "mine?")] in
  let outs := serve_run demo_world rs init_state in
  strictly_increasing (clock demo_world)
  /\ reachable demo_world init_state []
  /\ list_messages "chat-0" init_state = []
  /\ answered_count "chat-0" outs = 2%nat
  /\ length (list_messages "chat-0" (state_after init_state outs)) = 4%nat.
Proof.
  split_and!;
    [exact demo_clock_increasing | constructor | reflexivity
    | vm_compute; reflexivity |].
  refine (eq_trans
            (proj1 (successful_turns_listing demo_world "chat-0"
                      [PostMessage 7 (ask "hi"); PostMessage 8 (ask "elsewhere");
                       PostMessage 7 (ask_in "chat-0" "more"); GetHistory 7;
                       PostMessage 8 (ask_in "chat-0" "mine?")]
                      init_state []
                      demo_clock_increasing (reach_init demo_world) eq_refl)) _).
  vm_compute. reflexivity.
Defined.

(* ===================================================================== *)
(** * What the store does to a content *)
(* ===================================================================== *)

Lemma remove_nul_spec (text : string) : nul_removed text (remove_nul text).
Proof.
  unfold nul_removed. induction text as [|c text IH]; [done|].
  cbn [remove_nul list_ascii_of_string].
  destruct (Ascii.eqb_spec c "000") as [->|Hc].
  - rewrite filter_cons_False by (intros H; by apply H). exact IH.
  - rewrite filter_cons_True by done. cbn [list_ascii_of_string]. by rewrite IH.
Qed.

Lemma lstrip_spec (s : string) :
  exists before, s = before +:+ lstrip s /\ all_chars isspace before = true.
Proof.
  induction s as [|c s (before & Hs & Hb)]; [by exists ""|].
  cbn [lstrip]. destruct (isspace c) eqn:Hc; [|by exists ""].
  exists (String c before). split.
  - change (String c s = String c (before +:+ lstrip s)). by f_equal.
  - cbn [all_chars]. by rewrite Hc, Hb.
Qed.

Lemma rstrip_spec (s : string) :
  exists after, s = rstrip s +:+ after /\ all_chars isspace after = true.
Proof.
  induction s as [|c s (after & Hs & Ha)]; [by exists ""|].
  cbn [rstrip]. destruct (rstrip s) as [|e r] eqn:E.
  - change (s = after) in Hs. subst after.
    destruct (isspace c) eqn:Hc.
    + exists (String c s). split; [done|]. cbn [all_chars]. by rewrite Hc, Ha.
    + by exists s.
  - exists after. split; [|done].
    change (String c s = String c (String e r +:+ after)). by f_equal.
Qed.

Lemma strip_spec (s : string) : stripped s (strip s).
Proof.
  destruct (lstrip_spec s) as (before & Hs & Hb).
  destruct (rstrip_spec (lstrip s)) as (after & Hl & Ha).
  exists before, after. unfold strip. split_and!; [|done|done| |].
  - by rewrite <- Hl.
  - intros c Hc. by apply rstrip_first, lstrip_first in Hc.
  - apply rstrip_last.
Qed.

(** [sanitize_db_input] does what the words say. *)
Lemma sanitize_db_input_spec (text : string) :
  nul_removed_and_stripped text (sanitize_db_input text).
Proof.
  rewrite sanitize_is_strip_remove_nul. exists (remove_nul text).
  split; [apply remove_nul_spec|apply strip_spec].
Qed.

(** C10. Every message the store persists has its content transformed
    before insertion. The content [add_message] inserts is the given one
    with its null characters removed and the white space at both ends
    stripped, so it holds no null character and neither starts nor ends
    with white space; this is so for every message row of every state
    the service reaches, and for the assistant row of an answered turn,
    which holds the generator's output transformed this way. So there
    are turns, for an output with surrounding white space and for one
    with a null character inside, whose assistant row read back from the
    chat differs from the response text the same turn returned. *)
Theorem stored_content_is_sanitized :
  (forall w chat_id role content s,
     exists stored,
       messages (db (state_of (add_message w chat_id role content s)))
       = messages (db s) ++
           [mkMessage (S (length (messages (db s)))) chat_id role stored
                      (clock w (tick s))]
       /\ nul_removed_and_stripped content stored
       /\ clean stored)
  /\ (forall w s tr,
        reachable w s tr ->
        Forall (fun m => clean (msg_content m)) (messages (db s)))
  /\ (forall w user_id data s response cid,
        reply (send_message w user_id data s) = JsonMessage response cid ->
        exists id ts stored,
          last (messages (db (final (send_message w user_id data s))))
          = Some (mkMessage id cid "assistant" stored ts)
          /\ nul_removed_and_stripped response stored
          /\ clean stored)
  /\ (exists w user_id data s response cid m,
        reply (send_message w user_id data s) = JsonMessage response cid
        /\ first_char response = Some " "%char
        /\ last (list_messages cid (final (send_message w user_id data s))) = Some m
        /\ msg_role m = "assistant"
        /\ msg_content m <> response)
  /\ (exists w user_id data s response cid m,
        reply (send_message w user_id data s) = JsonMessage response cid
        /\ all_chars (fun c => negb (is_nul c)) response = false
        /\ last (list_messages cid (final (send_message w user_id data s))) = Some m
        /\ msg_role m = "assistant"
        /\ msg_content m <> response).
Proof.
  split_and!.
  - intros w chat_id role content s. exists (sanitize_db_input content).
    split_and!; [done|apply sanitize_db_input_spec|apply sanitize_db_input_clean].
  - intros w.
    apply (reachable_keeps w (fun s =>
      Forall (fun m => clean (msg_content m)) (messages (db s)))); try done.
    intros s0 cid prompt response Hm _. cbn. apply Forall_app. split; [done|].
    repeat constructor; cbn; apply sanitize_db_input_clean.
  - intros w user_id data s response cid Hreply.
    destruct (answered_inv w user_id data s response cid Hreply) as (s2 & -> & _).
    unfold with_turn. cbn [db messages].
    eexists _, _, (sanitize_db_input response). split_and!.
    + change [?a; ?b] with ([a] ++ [b]). by rewrite app_assoc, last_snoc.
    + apply sanitize_db_input_spec.
    + apply sanitize_db_input_clean.
  - exists demo_world, 7, (ask "hi"), init_state, " hi ", "chat-0",
      (mkMessage 2 "chat-0" "assistant" "hi" 4).
    split_and!; [vm_compute; reflexivity..|]. cbn. discriminate.
  - exists nul_world, 7, (ask "hi"), init_state, (String "a" (String "000" "b")),
      "chat-0", (mkMessage 2 "chat-0" "assistant" "ab" 4).
    split_and!; [vm_compute; reflexivity..|]. cbn. discriminate.
Qed.

Lemma stored_content_is_sanitized_witness :
  reply (send_message demo_world 7 (ask "hi") init_state) = JsonMessage " hi " "chat-0"
  /\ exists id ts stored,
       last (messages (db (final (send_message demo_world 7 (ask "hi") init_state))))
       = Some (mkMessage id "chat-0" "assistant" stored ts)
       /\ nul_removed_and_stripped " hi " stored
       /\ clean stored.
Proof.
  assert (Hreply : reply (send_message demo_world 7 (ask "hi") init_state)
                   = JsonMessage " hi " "chat-0") by (vm_compute; reflexivity).
  split; [exact Hreply|].
  exact (proj1 (proj2 (proj2 stored_content_is_sanitized))
           demo_world 7 (ask "hi") init_state " hi " "chat-0" Hreply).
Defined.
